(** * Shallow embedding of [imgui_glium_renderer.rs] (bugsyth_engine_imgui_support)

    Model conventions.
    - [f32] values are modelled as exact rationals [Q]; rounding and NaN are
      abstracted away.  [f32::floor] / [f32::ceil] are [Qfloor] / [Qceiling]
      and the Rust cast [as u32] saturates into [0, 2^32 - 1].
    - [usize] is [N] below [2^64]; [usize::MAX] is [usize_max].
    - GPU objects are opaque: a buffer is the data it was created from, a
      texture is a handle number.  The backend (glium [Facade] and
      [Surface]) is a record of functions deciding whether a creation or a
      draw succeeds.
    - [render] takes [&mut self]: it is a state-passing function over the
      [Renderer] and the log of effects issued to the backend (draw calls and
      raw callbacks), with Rust's [?] as an error short-circuit and
      [.expect] as a panic outcome. *)

From Stdlib Require Import String.
From Stdlib Require Import QArith Qround Qabs Qminmax ZArith Lia Lqa List.
From stdpp Require Import base gmap.
Import ListNotations.

Open Scope Q_scope.

(** ** Numbers *)

Definition usize_max : N := (2 ^ 64 - 1)%N.
Definition u32_max : Z := (2 ^ 32 - 1)%Z.

(** [usize] addition as compiled in release mode (wrapping). *)
Definition usize_wrapping_add (a b : N) : N := ((a + b) mod 2 ^ 64)%N.

(** The comparisons [a < b] and [a <= b]. *)
Definition f32_lt (a b : Q) : bool := negb (Qle_bool b a).
Definition f32_le (a b : Q) : bool := Qle_bool a b.

(** [f32::max(a, b)]. *)
Definition f32_max (a b : Q) : Q := if Qle_bool a b then b else a.

(** The saturating float-to-integer cast [x as u32] applied to an integral
    value. *)
Definition as_u32 (z : Z) : Z := Z.max 0 (Z.min z u32_max).

(** ** Errors (RendererError) *)

(** Backend error payloads are opaque codes. *)
Inductive BufferCreationError := VertexBufferCreationError (code : nat).
Inductive IndexBufferCreationError := IndexBufferCreationErr (code : nat).
Inductive ProgramChooserCreationError := ProgramChooserErr (code : nat).
Inductive TextureCreationError := TextureCreationErr (code : nat).
Inductive DrawError := DrawErr (code : nat).

(** imgui's [TextureId] is a newtype around [usize]. *)
Definition TextureId := N.

Inductive RendererError :=
| Vertex (e : BufferCreationError)
| Index (e : IndexBufferCreationError)
| Program (e : ProgramChooserCreationError)
| Texture (e : TextureCreationError)
| Draw (e : DrawError)
| BadTexture (t : TextureId).

(** ** Textures and the renderer state *)

Inductive MinifySamplerFilter := MinLinear | MinNearest.
Inductive MagnifySamplerFilter := MagLinear | MagNearest.
Inductive SamplerWrapFunction := Repeat | Clamp | BorderClamp | Mirror.

Record SamplerBehavior := {
  minify_filter : MinifySamplerFilter;
  magnify_filter : MagnifySamplerFilter;
  wrap_function : SamplerWrapFunction * SamplerWrapFunction * SamplerWrapFunction;
}.

(** [pub struct Texture { texture: Rc<Texture2d>, sampler: SamplerBehavior }];
    the [Rc<Texture2d>] is the GPU handle it points to. *)
Record TextureEntry := {
  texture : positive;
  sampler : SamplerBehavior;
}.

(** imgui's [Textures<T>]: [HashMap<usize, T>] plus the counter [next]
    handing out identifiers ([imgui/src/render/renderer.rs]). *)
Record Textures := {
  tex_map : gmap N TextureEntry;
  next : N;
}.

Definition Textures_new : Textures := {| tex_map := ∅; next := 0%N |}.

(** [Textures::insert]: [let id = self.next; self.textures.insert(id, t);
    self.next += 1; TextureId::from(id)]. *)
Definition Textures_insert (t : TextureEntry) (ts : Textures) : TextureId * Textures :=
  let id := next ts in
  (id, {| tex_map := <[id := t]> (tex_map ts);
          next := usize_wrapping_add (next ts) 1 |}).

(** [Textures::remove]. *)
Definition Textures_remove (id : TextureId) (ts : Textures) : option TextureEntry * Textures :=
  (tex_map ts !! id, {| tex_map := delete id (tex_map ts); next := next ts |}).

(** [Textures::replace]. *)
Definition Textures_replace (id : TextureId) (t : TextureEntry) (ts : Textures)
  : option TextureEntry * Textures :=
  (tex_map ts !! id, {| tex_map := <[id := t]> (tex_map ts); next := next ts |}).

(** [Textures::get]. *)
Definition Textures_get (id : TextureId) (ts : Textures) : option TextureEntry :=
  tex_map ts !! id.

(** The compiled shader program is an opaque handle. *)
Definition ProgramHandle := positive.

(** [pub struct Renderer { ctx, program, font_texture, textures }]; the
    shared GL context [ctx] carries no state of the renderer's own. *)
Record Renderer := {
  program : ProgramHandle;
  font_texture : TextureEntry;
  textures : Textures;
}.

Definition set_font_texture (r : Renderer) (t : TextureEntry) : Renderer :=
  {| program := program r; font_texture := t; textures := textures r |}.

Definition set_textures (r : Renderer) (ts : Textures) : Renderer :=
  {| program := program r; font_texture := font_texture r; textures := ts |}.

(** [Renderer::lookup_texture]. *)
Definition lookup_texture (r : Renderer) (texture_id : TextureId)
  : TextureEntry + RendererError :=
  if N.eqb texture_id usize_max then inl (font_texture r)
  else match Textures_get texture_id (textures r) with
       | Some t => inl t
       | None => inr (BadTexture texture_id)
       end.

(** [Renderer::reload_font_texture]: [self.font_texture =
    upload_font_texture(..)?; Ok(())].  The upload result is the input. *)
Definition reload_font_texture (r : Renderer)
  (upload : TextureEntry + RendererError) : Renderer * (unit + RendererError) :=
  match upload with
  | inl t => (set_font_texture r t, inl tt)
  | inr e => (r, inr e)
  end.

(** [renderer.textures().insert(t)] and [renderer.textures().remove(id)]. *)
Definition renderer_insert_texture (r : Renderer) (t : TextureEntry) : TextureId * Renderer :=
  let '(id, ts) := Textures_insert t (textures r) in (id, set_textures r ts).

Definition renderer_remove_texture (r : Renderer) (id : TextureId) : Renderer :=
  set_textures r (snd (Textures_remove id (textures r))).

(** ** Draw data (imgui's [DrawData], read-only) *)

(** [[f32; 4]] values: clip rectangles and matrix columns. *)
Record V4 := mkV4 { c0 : Q; c1 : Q; c2 : Q; c3 : Q }.

(** [GliumDrawVert { pos: [f32; 2], uv: [f32; 2], col: [u8; 4] }]. *)
Record GliumDrawVert := {
  pos : Q * Q;
  uv : Q * Q;
  col : N * N * N * N;
}.

(** [DrawCmdParams]; the fields the renderer ignores ([..]) are left out. *)
Record DrawCmdParams := {
  clip_rect : V4;
  texture_id : TextureId;
  vtx_offset : nat;
  idx_offset : nat;
}.

(** [DrawCmd]; a raw callback is an opaque function reference and payload. *)
Inductive DrawCmd :=
| Elements (count : nat) (cmd_params : DrawCmdParams)
| ResetRenderState
| RawCallback (callback : nat) (raw_cmd : nat).

Record DrawList := {
  vtx_buffer : list GliumDrawVert;
  idx_buffer : list N;
  commands : list DrawCmd;
}.

Record DrawData := {
  display_pos : Q * Q;
  display_size : Q * Q;
  framebuffer_scale : Q * Q;
  draw_lists : list DrawList;
}.

(** ** Backend (glium) *)

(** glium's [Rect] with [u32] fields. *)
Record Rect := { left : Z; bottom : Z; width : Z; height : Z }.

Inductive LinearBlendingFactor := One | SourceAlpha | OneMinusSourceAlpha.
Inductive BlendingFunction :=
| AlwaysReplace
| Addition (source destination : LinearBlendingFactor).

Record Blend := { blend_color : BlendingFunction; blend_alpha : BlendingFunction }.

(** [Blend::alpha_blending()]. *)
Definition Blend_alpha_blending : Blend :=
  {| blend_color := Addition SourceAlpha OneMinusSourceAlpha;
     blend_alpha := Addition SourceAlpha OneMinusSourceAlpha |}.

(** A 4x4 uniform matrix given as four columns, as glium passes
    [[[f32; 4]; 4]] to a GLSL [mat4] (column-major). *)
Record M4 := mkM4 { col0 : V4; col1 : V4; col2 : V4; col3 : V4 }.

(** [matrix * v] as the vertex shader computes it. *)
Definition mat_apply (m : M4) (v : V4) : V4 :=
  let comb f := c0 v * f (col0 m) + c1 v * f (col1 m) + c2 v * f (col2 m) + c3 v * f (col3 m) in
  mkV4 (comb c0) (comb c1) (comb c2) (comb c3).

(** The arguments of one [target.draw(..)] call. *)
Record DrawCall := {
  dc_vertices : list GliumDrawVert;
  dc_indices : list N;
  dc_program : ProgramHandle;
  dc_matrix : M4;
  dc_texture : TextureEntry;
  dc_blend : Blend;
  dc_scissor : Rect;
}.

(** What the backend decides: whether a buffer creation or a draw is
    rejected ([Some err]) or accepted ([None]). *)
Record Backend := {
  vertex_buffer_immutable : list GliumDrawVert -> option BufferCreationError;
  index_buffer_immutable : list N -> option IndexBufferCreationError;
  surface_draw : DrawCall -> option DrawError;
}.

(** [BufferAny::slice(start..end)]: [None] when [start > end] or
    [end > len]. *)
Definition buffer_slice {A} (b : list A) (start end_ : nat) : option (list A) :=
  if (Nat.leb start end_ && Nat.leb end_ (length b))%bool
  then Some (firstn (end_ - start) (skipn start b)) else None.

(** ** The render monad: renderer state, effect log, [?] and panics *)

(** Effects visible outside the renderer, in issue order. *)
Inductive Event :=
| EvDraw (dc : DrawCall)
| EvCallback (callback : nat) (raw_cmd : nat).

Inductive PanicMsg := InvalidVertexRange | InvalidIndexRange.

Inductive Outcome (A : Type) :=
| Ok (a : A)
| Err (e : RendererError)
| Panic (p : PanicMsg).
Arguments Ok {A} a.
Arguments Err {A} e.
Arguments Panic {A} p.

Definition St : Type := Renderer * list Event.
Definition RM (A : Type) : Type := St -> St * Outcome A.

Definition rret {A} (a : A) : RM A := fun s => (s, Ok a).

Definition rbind {A B} (m : RM A) (k : A -> RM B) : RM B :=
  fun s => let '(s', o) := m s in
    match o with
    | Ok a => k a s'
    | Err e => (s', Err e)
    | Panic p => (s', Panic p)
    end.

Notation "'let*' x := m 'in' k" := (rbind m (fun x => k))
  (at level 200, x name, m at level 100, k at level 200).

Definition throw {A} (e : RendererError) : RM A := fun s => (s, Err e).

(** [&self]: read the renderer. *)
Definition get_self : RM Renderer := fun s => (s, Ok (fst s)).

(** Issue an effect to the backend. *)
Definition emit (ev : Event) : RM unit :=
  fun s => ((fst s, snd s ++ [ev]), Ok tt).

(** Rust's [?] on a [Result<_, RendererError>]. *)
Definition try_res {A} (x : A + RendererError) : RM A :=
  match x with inl a => rret a | inr e => throw e end.

(** [Option::expect]. *)
Definition expect {A} (o : option A) (msg : PanicMsg) : RM A :=
  fun s => match o with Some a => (s, Ok a) | None => (s, Panic msg) end.

(** A [for] loop whose body may short-circuit. *)
Fixpoint for_each {A} (xs : list A) (f : A -> RM unit) : RM unit :=
  match xs with
  | [] => rret tt
  | x :: xs' => let* _ := f x in for_each xs' f
  end.

(** ** [Renderer::render] *)

(** [(fb_width, fb_height)]: [display_size * framebuffer_scale]. *)
Definition fb_size (draw_data : DrawData) : Q * Q :=
  (fst (display_size draw_data) * fst (framebuffer_scale draw_data),
   snd (display_size draw_data) * snd (framebuffer_scale draw_data)).

(** The orthographic projection [matrix] built from [display_pos] and
    [display_size]. *)
Definition projection (draw_data : DrawData) : M4 :=
  let left := fst (display_pos draw_data) in
  let right := fst (display_pos draw_data) + fst (display_size draw_data) in
  let top := snd (display_pos draw_data) in
  let bottom := snd (display_pos draw_data) + snd (display_size draw_data) in
  mkM4 (mkV4 (2 / (right - left)) 0 0 0)
       (mkV4 0 (2 / (top - bottom)) 0 0)
       (mkV4 0 0 (-1) 0)
       (mkV4 ((right + left) / (left - right)) ((top + bottom) / (bottom - top)) 0 1).

(** The clip rectangle in framebuffer pixels:
    [(clip_rect - clip_off) * clip_scale]. *)
Definition transform_clip (clip_off clip_scale : Q * Q) (cr : V4) : V4 :=
  mkV4 ((c0 cr - fst clip_off) * fst clip_scale)
       ((c1 cr - snd clip_off) * snd clip_scale)
       ((c2 cr - fst clip_off) * fst clip_scale)
       ((c3 cr - snd clip_off) * snd clip_scale).

(** The culling test of the [Elements] arm. *)
Definition clip_visible (fb_width fb_height : Q) (cr : V4) : bool :=
  f32_lt (c0 cr) fb_width && f32_lt (c1 cr) fb_height
  && f32_le 0 (c2 cr) && f32_le 0 (c3 cr).

(** The [scissor] rectangle passed with the draw call. *)
Definition scissor_rect (fb_height : Q) (cr : V4) : Rect :=
  {| left := as_u32 (Qfloor (f32_max 0 (c0 cr)));
     bottom := as_u32 (Qfloor (f32_max 0 (fb_height - c3 cr)));
     width := as_u32 (Qceiling (Qabs (c2 cr - c0 cr)));
     height := as_u32 (Qceiling (Qabs (c3 cr - c1 cr))) |}.

(** The blend state: [alpha] replaced, [color] from [alpha_blending()]. *)
Definition draw_blend : Blend :=
  {| blend_color := blend_color Blend_alpha_blending;
     blend_alpha := Addition One OneMinusSourceAlpha |}.

(** The [DrawCmd::Elements] arm, after the clip rectangle is transformed.
    [idx_offset + count] is computed without overflow: an overflowing sum in
    Rust either panics or wraps to an end below the start, so the slice is
    rejected and [expect] panics either way, as here. *)
Definition render_elements (bk : Backend) (matrix : M4) (fb_width fb_height : Q)
  (vtx_buf : list GliumDrawVert) (idx_buf : list N)
  (count : nat) (clip_rect : V4) (texture_id : TextureId) (vtx_offset idx_offset : nat)
  : RM unit :=
  if clip_visible fb_width fb_height clip_rect then
    let* self := get_self in
    let* texture := try_res (lookup_texture self texture_id) in
    let* vs := expect (buffer_slice vtx_buf vtx_offset (length vtx_buf)) InvalidVertexRange in
    let* is := expect (buffer_slice idx_buf idx_offset (idx_offset + count)) InvalidIndexRange in
    let dc := {| dc_vertices := vs; dc_indices := is; dc_program := program self;
                 dc_matrix := matrix; dc_texture := texture; dc_blend := draw_blend;
                 dc_scissor := scissor_rect fb_height clip_rect |} in
    match surface_draw bk dc with
    | None => emit (EvDraw dc)
    | Some e => throw (Draw e)
    end
  else rret tt.

(** One command of a draw list. *)
Definition render_cmd (bk : Backend) (draw_data : DrawData) (matrix : M4) (fb_width fb_height : Q)
  (vtx_buf : list GliumDrawVert) (idx_buf : list N) (cmd : DrawCmd) : RM unit :=
  match cmd with
  | Elements count p =>
      render_elements bk matrix fb_width fb_height vtx_buf idx_buf count
        (transform_clip (display_pos draw_data) (framebuffer_scale draw_data) (clip_rect p))
        (texture_id p) (vtx_offset p) (idx_offset p)
  | ResetRenderState => rret tt
  | RawCallback callback raw_cmd => emit (EvCallback callback raw_cmd)
  end.

(** One draw list: create both buffers, then run its commands in order. *)
Definition render_list (bk : Backend) (draw_data : DrawData) (matrix : M4) (fb_width fb_height : Q)
  (draw_list : DrawList) : RM unit :=
  let* vtx_buf :=
    match vertex_buffer_immutable bk (vtx_buffer draw_list) with
    | None => rret (vtx_buffer draw_list)
    | Some e => throw (Vertex e)
    end in
  let* idx_buf :=
    match index_buffer_immutable bk (idx_buffer draw_list) with
    | None => rret (idx_buffer draw_list)
    | Some e => throw (Index e)
    end in
  for_each (commands draw_list)
    (render_cmd bk draw_data matrix fb_width fb_height vtx_buf idx_buf).

(** [Renderer::render(&mut self, target, draw_data)]. *)
Definition render (bk : Backend) (draw_data : DrawData) : RM unit :=
  let '(fb_width, fb_height) := fb_size draw_data in
  if negb (f32_lt 0 fb_width && f32_lt 0 fb_height) then rret tt
  else
    let matrix := projection draw_data in
    for_each (draw_lists draw_data) (render_list bk draw_data matrix fb_width fb_height).

(** Run [render] on a renderer, starting from an empty effect log. *)
Definition run_render (bk : Backend) (self : Renderer) (draw_data : DrawData)
  : St * Outcome unit :=
  render bk draw_data (self, []).

(** ** Sample values *)

Definition font_sampler : SamplerBehavior :=
  {| minify_filter := MinLinear; magnify_filter := MagLinear;
     wrap_function := (BorderClamp, BorderClamp, BorderClamp) |}.

Definition sample_font : TextureEntry := {| texture := 1%positive; sampler := font_sampler |}.
Definition sample_user_texture : TextureEntry := {| texture := 2%positive; sampler := font_sampler |}.

(** A freshly created renderer ([Renderer::new]). *)
Definition sample_renderer : Renderer :=
  {| program := 1%positive; font_texture := sample_font; textures := Textures_new |}.

(** A backend accepting every buffer and every draw. *)
Definition accepting_backend : Backend :=
  {| vertex_buffer_immutable := fun _ => None;
     index_buffer_immutable := fun _ => None;
     surface_draw := fun _ => None |}.

(** A backend whose surface rejects every draw call. *)
Definition rejecting_backend : Backend :=
  {| vertex_buffer_immutable := fun _ => None;
     index_buffer_immutable := fun _ => None;
     surface_draw := fun _ => Some (DrawErr 1) |}.

Definition sample_vert : GliumDrawVert := {| pos := (0, 0); uv := (0, 0); col := (255, 255, 255, 255)%N |}.

(** One draw list with one [Elements] command on the font atlas. *)
Definition one_command_frame (ds fs : Q * Q) (cr : V4) (tid : TextureId) (vo : nat) : DrawData :=
  {| display_pos := (0, 0); display_size := ds; framebuffer_scale := fs;
     draw_lists :=
       [ {| vtx_buffer := [sample_vert; sample_vert; sample_vert];
            idx_buffer := [0; 1; 2]%N;
            commands := [Elements 3 {| clip_rect := cr; texture_id := tid;
                                       vtx_offset := vo; idx_offset := 0 |}] |} ] |}.

Definition draw_events (log : list Event) : list DrawCall :=
  flat_map (fun ev => match ev with EvDraw dc => [dc] | EvCallback _ _ => [] end) log.

Definition scissors_of (res : St * Outcome unit) : list Rect :=
  map dc_scissor (draw_events (snd (fst res))).

(** ** Predicates used by the statements *)

(** A computation that never writes the renderer. *)
Definition keeps_self {A} (m : RM A) : Prop := forall s, fst (fst (m s)) = fst s.

(** A computation that only appends to the effect log. *)
Definition extends_log {A} (m : RM A) : Prop := forall s, exists l, snd (fst (m s)) = snd s ++ l.

(** A registry whose counter has reached [usize::MAX]. *)
Definition exhausted_renderer : Renderer :=
  set_textures sample_renderer {| tex_map := ∅; next := usize_max |}.

Definition no_panic {A} (m : RM A) : Prop := forall s p, snd (m s) <> Panic p.

(** The culling condition in the words of the spec: left edge at or beyond
    the framebuffer width, top edge at or beyond its height, right or
    bottom edge negative. *)
Definition spec_culled (fw fh : Q) (cr : V4) : bool :=
  Qle_bool fw (c0 cr) || Qle_bool fh (c1 cr) || f32_lt (c2 cr) 0 || f32_lt (c3 cr) 0.

(** Number of [Elements] commands of a frame that the spec's condition does
    not cull. *)
Definition count_surviving (dd : DrawData) (fw fh : Q) : nat :=
  list_sum (map (fun dl =>
    length (List.filter (fun c => match c with
                             | Elements _ p =>
                                 negb (spec_culled fw fh
                                   (transform_clip (display_pos dd) (framebuffer_scale dd) (clip_rect p)))
                             | _ => false
                             end) (commands dl))) (draw_lists dd)).

Definition dcount (s : St) : nat := length (draw_events (snd s)).

(** Every draw call [m] appends to the log satisfies [P]; it only appends. *)
Definition logs_only {A} (P : DrawCall -> Prop) (m : RM A) : Prop :=
  forall s, exists l, snd (fst (m s)) = snd s ++ l /\ forall dc, In (EvDraw dc) l -> P dc.

(** The draw calls of a frame come from its visible [Elements] commands,
    with the scissor rectangle of that command. *)
Definition drawn_from (dd : DrawData) (fw fh : Q) (dc : DrawCall) : Prop :=
  exists dl count p,
    In dl (draw_lists dd) /\ In (Elements count p) (commands dl)
    /\ clip_visible fw fh (transform_clip (display_pos dd) (framebuffer_scale dd) (clip_rect p)) = true
    /\ dc_scissor dc = scissor_rect fh (transform_clip (display_pos dd) (framebuffer_scale dd) (clip_rect p)).

(** Two draw lists: the first draws with the font atlas, the second refers
    to the unregistered texture 7. *)
Definition two_list_frame : DrawData :=
  {| display_pos := (0, 0); display_size := (800, 600); framebuffer_scale := (1, 1);
     draw_lists :=
       [ {| vtx_buffer := [sample_vert; sample_vert; sample_vert]; idx_buffer := [0; 1; 2]%N;
            commands := [Elements 3 {| clip_rect := mkV4 0 0 100 100; texture_id := usize_max;
                                       vtx_offset := 0; idx_offset := 0 |}] |};
         {| vtx_buffer := [sample_vert; sample_vert; sample_vert]; idx_buffer := [0; 1; 2]%N;
            commands := [Elements 3 {| clip_rect := mkV4 0 0 100 100; texture_id := 7%N;
                                       vtx_offset := 0; idx_offset := 0 |}] |} ] |}.

(** ** Construction and font upload *)







(** ** Caller patterns on the registry *)

(** Registering textures one after the other with [textures().insert]. *)
Fixpoint insert_all (ts : list TextureEntry) (reg : Textures) : list TextureId * Textures :=
  match ts with
  | [] => ([], reg)
  | t :: ts' =>
      let '(id, reg1) := Textures_insert t reg in
      let '(ids, reg2) := insert_all ts' reg1 in
      (id :: ids, reg2)
  end.

(** ** Observations on the effect log *)

(** What an effect shows of itself: a draw call's scissor rectangle or a
    callback with its payload. *)
Definition event_shape (ev : Event) : Rect + (nat * nat) :=
  match ev with
  | EvDraw dc => inl (dc_scissor dc)
  | EvCallback cb raw => inr (cb, raw)
  end.

(** The effects the commands of a frame ask for, in command order. *)
Definition cmd_shapes (dd : DrawData) (fw fh : Q) (c : DrawCmd) : list (Rect + (nat * nat)) :=
  match c with
  | Elements _ p =>
      let cr := transform_clip (display_pos dd) (framebuffer_scale dd) (clip_rect p) in
      if clip_visible fw fh cr then [inl (scissor_rect fh cr)] else []
  | ResetRenderState => []
  | RawCallback cb raw => [inr (cb, raw)]
  end.

Definition frame_shapes (dd : DrawData) (fw fh : Q) : list (Rect + (nat * nat)) :=
  flat_map (fun dl => flat_map (cmd_shapes dd fw fh) (commands dl)) (draw_lists dd).

(** [m], run from renderer [r], keeps [r] and only appends draw calls
    satisfying [P]. *)
Definition logs_only_at {A} (r : Renderer) (P : DrawCall -> Prop) (m : RM A) : Prop :=
  forall L, exists l, fst (fst (m (r, L))) = r /\ snd (fst (m (r, L))) = L ++ l
                      /\ forall dc, In (EvDraw dc) l -> P dc.

(** Everything a draw call of [render] is made of, read off its command. *)
Definition draw_args (r : Renderer) (dd : DrawData) (fw fh : Q) (dc : DrawCall) : Prop :=
  exists dl count p,
    In dl (draw_lists dd) /\ In (Elements count p) (commands dl)
    /\ clip_visible fw fh (transform_clip (display_pos dd) (framebuffer_scale dd) (clip_rect p)) = true
    /\ dc_scissor dc = scissor_rect fh (transform_clip (display_pos dd) (framebuffer_scale dd) (clip_rect p))
    /\ lookup_texture r (texture_id p) = inl (dc_texture dc)
    /\ dc_program dc = program r
    /\ dc_matrix dc = projection dd
    /\ dc_blend dc = {| blend_color := Addition SourceAlpha OneMinusSourceAlpha;
                        blend_alpha := Addition One OneMinusSourceAlpha |}
    /\ dc_vertices dc = skipn (vtx_offset p) (vtx_buffer dl)
    /\ dc_indices dc = firstn count (skipn (idx_offset p) (idx_buffer dl)).

(** A frame with a draw call, a reset marker and a callback. *)
Definition mixed_frame : DrawData :=
  {| display_pos := (0, 0); display_size := (800, 600); framebuffer_scale := (1, 1);
     draw_lists :=
       [ {| vtx_buffer := [sample_vert; sample_vert; sample_vert]; idx_buffer := [0; 1; 2]%N;
            commands := [Elements 3 {| clip_rect := mkV4 0 0 100 100; texture_id := usize_max;
                                       vtx_offset := 0; idx_offset := 0 |};
                         ResetRenderState; RawCallback 5 6;
                         Elements 3 {| clip_rect := mkV4 900 0 950 50; texture_id := usize_max;
                                       vtx_offset := 0; idx_offset := 0 |}] |} ] |}.

(** The scenario of the spec: clip rectangle [[-10,-10,810,610]]. *)
Example scenario_overhanging_clip :
  scissors_of (run_render accepting_backend sample_renderer
    (one_command_frame (800, 600) (1, 1) (mkV4 (-10) (-10) 810 610) usize_max 0))
  = [ {| left := 0; bottom := 0; width := 820; height := 620 |} ].
Proof. vm_compute. reflexivity. Qed.

(** The scenario of the spec: clip rectangle right of the framebuffer. *)
Example scenario_offscreen_clip :
  run_render accepting_backend sample_renderer
    (one_command_frame (800, 600) (1, 1) (mkV4 900 0 950 50) usize_max 0)
  = ((sample_renderer, []), Ok tt).
Proof. vm_compute. reflexivity. Qed.

(** ** Frame effects of the monad *)

Create HintDb frame.

Lemma rret_keeps {A} (a : A) : keeps_self (rret a).
Proof. intros s; reflexivity. Qed.
Lemma throw_keeps {A} e : keeps_self (@throw A e).
Proof. intros s; reflexivity. Qed.
Lemma get_self_keeps : keeps_self get_self.
Proof. intros s; reflexivity. Qed.
Lemma emit_keeps ev : keeps_self (emit ev).
Proof. intros s; reflexivity. Qed.
Lemma expect_keeps {A} (o : option A) msg : keeps_self (expect o msg).
Proof. intros s; unfold expect; destruct o; reflexivity. Qed.
Lemma try_res_keeps {A} (x : A + RendererError) : keeps_self (try_res x).
Proof. destruct x; intros s; reflexivity. Qed.

Lemma rbind_keeps {A B} (m : RM A) (k : A -> RM B) :
  keeps_self m -> (forall a, keeps_self (k a)) -> keeps_self (rbind m k).
Proof.
  intros Hm Hk s. unfold rbind. specialize (Hm s).
  destruct (m s) as [s' o]. simpl in Hm.
  destruct o; simpl; try exact Hm. rewrite Hk. exact Hm.
Qed.

Lemma for_each_keeps {A} (xs : list A) f :
  (forall x, keeps_self (f x)) -> keeps_self (for_each xs f).
Proof.
  intros Hf. induction xs as [|x xs IH]; simpl.
  - apply rret_keeps.
  - apply rbind_keeps; auto.
Qed.

Lemma rret_extends {A} (a : A) : extends_log (rret a).
Proof. intros s; exists []; simpl; symmetry; apply app_nil_r. Qed.
Lemma throw_extends {A} e : extends_log (@throw A e).
Proof. intros s; exists []; simpl; symmetry; apply app_nil_r. Qed.
Lemma get_self_extends : extends_log get_self.
Proof. intros s; exists []; simpl; symmetry; apply app_nil_r. Qed.
Lemma emit_extends ev : extends_log (emit ev).
Proof. intros s; exists [ev]; reflexivity. Qed.
Lemma expect_extends {A} (o : option A) msg : extends_log (expect o msg).
Proof. intros s; exists []; unfold expect; destruct o; simpl; symmetry; apply app_nil_r. Qed.
Lemma try_res_extends {A} (x : A + RendererError) : extends_log (try_res x).
Proof. destruct x; [apply rret_extends | apply throw_extends]. Qed.

Lemma rbind_extends {A B} (m : RM A) (k : A -> RM B) :
  extends_log m -> (forall a, extends_log (k a)) -> extends_log (rbind m k).
Proof.
  intros Hm Hk s. unfold rbind. destruct (Hm s) as [l1 H1].
  destruct (m s) as [s' o]. simpl in H1.
  destruct o; simpl; try (exists l1; exact H1).
  destruct (Hk a s') as [l2 H2]. exists (l1 ++ l2). rewrite H2, H1, app_assoc. reflexivity.
Qed.

Lemma for_each_extends {A} (xs : list A) f :
  (forall x, extends_log (f x)) -> extends_log (for_each xs f).
Proof.
  intros Hf. induction xs as [|x xs IH]; simpl.
  - apply rret_extends.
  - apply rbind_extends; auto.
Qed.

#[local] Hint Resolve rret_keeps throw_keeps get_self_keeps emit_keeps expect_keeps
  try_res_keeps rbind_keeps for_each_keeps : frame.
#[local] Hint Resolve rret_extends throw_extends get_self_extends emit_extends
  expect_extends try_res_extends rbind_extends for_each_extends : frame.

Ltac frame_step :=
  repeat first
    [ progress (intros; simpl)
    | match goal with
      | |- keeps_self (match ?x with _ => _ end) => destruct x
      | |- extends_log (match ?x with _ => _ end) => destruct x
      | |- keeps_self (if ?b then _ else _) => destruct b
      | |- extends_log (if ?b then _ else _) => destruct b
      end
    | apply rbind_keeps | apply rbind_extends
    | apply for_each_keeps | apply for_each_extends ];
  auto with frame.

Lemma render_elements_keeps bk m fw fh vb ib n cr tid vo io :
  keeps_self (render_elements bk m fw fh vb ib n cr tid vo io).
Proof. unfold render_elements. frame_step. Qed.

Lemma render_elements_extends bk m fw fh vb ib n cr tid vo io :
  extends_log (render_elements bk m fw fh vb ib n cr tid vo io).
Proof. unfold render_elements. frame_step. Qed.

Lemma render_cmd_keeps bk dd m fw fh vb ib c : keeps_self (render_cmd bk dd m fw fh vb ib c).
Proof. destruct c; simpl; auto using render_elements_keeps with frame. Qed.

Lemma render_cmd_extends bk dd m fw fh vb ib c : extends_log (render_cmd bk dd m fw fh vb ib c).
Proof. destruct c; simpl; auto using render_elements_extends with frame. Qed.

Lemma render_list_keeps bk dd m fw fh dl : keeps_self (render_list bk dd m fw fh dl).
Proof. unfold render_list. frame_step; apply render_cmd_keeps. Qed.

Lemma render_list_extends bk dd m fw fh dl : extends_log (render_list bk dd m fw fh dl).
Proof. unfold render_list. frame_step; apply render_cmd_extends. Qed.

Lemma render_keeps bk dd : keeps_self (render bk dd).
Proof.
  unfold render. destruct (fb_size dd) as [fw fh].
  destruct (negb _); auto using render_list_keeps with frame.
Qed.

Lemma render_extends bk dd : extends_log (render bk dd).
Proof.
  unfold render. destruct (fb_size dd) as [fw fh].
  destruct (negb _); auto using render_list_extends with frame.
Qed.

(** ** Claims *)

(** C3: the sentinel [usize::MAX] resolves to the current font-atlas entry in
    every renderer state, whatever the dynamic mapping holds (even an entry
    under the sentinel key itself), and after [reload_font_texture] has
    replaced the atlas it resolves to the new entry. *)
Theorem sentinel_resolves_to_font_texture :
  forall (r : Renderer) (ts : Textures) (t : TextureEntry),
    lookup_texture r usize_max = inl (font_texture r)
    /\ lookup_texture (set_textures r ts) usize_max = inl (font_texture r)
    /\ lookup_texture (fst (reload_font_texture r (inl t))) usize_max = inl t.
Proof.
  intros r ts t. unfold lookup_texture. rewrite N.eqb_refl. simpl. auto.
Qed.

(** C5: a non-sentinel identifier absent from the dynamic mapping fails to
    resolve with [BadTexture] carrying exactly that identifier. *)
Theorem unregistered_id_is_bad_texture :
  forall (r : Renderer) (id : TextureId),
    id <> usize_max -> tex_map (textures r) !! id = None ->
    lookup_texture r id = inr (BadTexture id).
Proof.
  intros r id Hne Habs. unfold lookup_texture, Textures_get.
  apply N.eqb_neq in Hne. rewrite Hne, Habs. reflexivity.
Qed.

Lemma unregistered_id_is_bad_texture_witness :
  (7 <> usize_max)%N /\ tex_map (textures sample_renderer) !! 7%N = None
  /\ lookup_texture sample_renderer 7%N = inr (BadTexture 7%N).
Proof.
  split; [vm_compute; discriminate | split; [reflexivity |]].
  apply unregistered_id_is_bad_texture; [vm_compute; discriminate | reflexivity].
Defined.

(** C9: [render] never writes the renderer: from any state, whatever the
    outcome (success, typed error or panic), the program, the font-atlas
    entry and the texture registry after the call are those before it. *)
Theorem render_preserves_renderer :
  forall (bk : Backend) (dd : DrawData) (s : St),
    fst (fst (render bk dd s)) = fst s
    /\ program (fst (fst (render bk dd s))) = program (fst s)
    /\ font_texture (fst (fst (render bk dd s))) = font_texture (fst s)
    /\ textures (fst (fst (render bk dd s))) = textures (fst s).
Proof.
  intros bk dd s. rewrite (render_keeps bk dd s). auto.
Qed.

Lemma f32_lt_spec a b : f32_lt a b = true <-> a < b.
Proof.
  unfold f32_lt. rewrite negb_true_iff. split; intros H.
  - apply Qnot_le_lt. intros Hle. apply Qle_bool_iff in Hle. congruence.
  - destruct (Qle_bool b a) eqn:E; [|reflexivity].
    apply Qle_bool_iff in E. exfalso. apply (Qlt_not_le a b); assumption.
Qed.

Lemma f32_lt_false a b : f32_lt a b = false <-> b <= a.
Proof.
  unfold f32_lt. rewrite negb_false_iff. apply Qle_bool_iff.
Qed.

Lemma f32_le_spec a b : f32_le a b = true <-> a <= b.
Proof. apply Qle_bool_iff. Qed.

(** C4 (as stated, refuted): a non-positive [display_size] component does not
    make the frame degenerate when the matching [framebuffer_scale] component
    is negative: here [display_size = (-800, 600)] and
    [framebuffer_scale = (-1, 1)] give an 800x600 framebuffer and a draw call
    is issued. *)
Lemma degenerate_frame_counterexample :
  let dd := one_command_frame (-800, 600) (-1, 1) (mkV4 (-10) 0 (-5) 10) usize_max 0 in
  fst (display_size dd) <= 0
  /\ snd (run_render accepting_backend sample_renderer dd) = Ok tt
  /\ length (draw_events (snd (fst (run_render accepting_backend sample_renderer dd)))) = 1%nat.
Proof. vm_compute. split; [discriminate | split; reflexivity]. Qed.

(** C4 (amended): when [display_size[0] * framebuffer_scale[0]] or
    [display_size[1] * framebuffer_scale[1]] is not strictly positive -- in
    particular when a [display_size] component is non-positive while the
    matching [framebuffer_scale] component is non-negative -- [render]
    returns [Ok(())] at once, with no effect issued and the renderer
    untouched. *)
Theorem render_degenerate_frame_noop :
  forall (bk : Backend) (self : Renderer) (dd : DrawData),
    ~ (0 < fst (fb_size dd) /\ 0 < snd (fb_size dd))
    \/ (fst (display_size dd) <= 0 /\ 0 <= fst (framebuffer_scale dd))
    \/ (snd (display_size dd) <= 0 /\ 0 <= snd (framebuffer_scale dd)) ->
    run_render bk self dd = ((self, []), Ok tt).
Proof.
  intros bk self dd H.
  assert (Hdeg : ~ (0 < fst (fb_size dd) /\ 0 < snd (fb_size dd))).
  { destruct H as [H | [[H1 H2] | [H1 H2]]]; [exact H | |];
      unfold fb_size; simpl; intros [Hw Hh]; nra. }
  unfold run_render, render. destruct (fb_size dd) as [fw fh] eqn:E. simpl in Hdeg.
  destruct (f32_lt 0 fw) eqn:Hw; destruct (f32_lt 0 fh) eqn:Hh; simpl; try reflexivity.
  apply f32_lt_spec in Hw. apply f32_lt_spec in Hh. tauto.
Qed.

Lemma render_degenerate_frame_noop_witness :
  let dd := one_command_frame (0, 600) (1, 1) (mkV4 0 0 10 10) usize_max 0 in
  (~ (0 < fst (fb_size dd) /\ 0 < snd (fb_size dd))
   \/ (fst (display_size dd) <= 0 /\ 0 <= fst (framebuffer_scale dd))
   \/ (snd (display_size dd) <= 0 /\ 0 <= snd (framebuffer_scale dd)))
  /\ run_render accepting_backend sample_renderer dd = ((sample_renderer, []), Ok tt).
Proof.
  intros dd.
  assert (H : ~ (0 < fst (fb_size dd) /\ 0 < snd (fb_size dd))
              \/ (fst (display_size dd) <= 0 /\ 0 <= fst (framebuffer_scale dd))
              \/ (snd (display_size dd) <= 0 /\ 0 <= snd (framebuffer_scale dd))).
  { right; left. split; vm_compute; discriminate. }
  split; [exact H | apply (render_degenerate_frame_noop accepting_backend sample_renderer dd H)].
Defined.

(** C6: with [left], [right], [top], [bottom] as [render] computes them and
    [right <> left], [top <> bottom], the projection [matrix] sends
    [x = left] to [-1], [x = right] to [+1], [y = top] to [+1] and
    [y = bottom] to [-1]; its Z entry is fixed at [-1] (the output Z is
    [-1 * z], independent of [x] and [y]) and [w] stays [1]. *)
Theorem projection_maps_display_rect :
  forall (dd : DrawData) (x y z : Q),
    let left := fst (display_pos dd) in
    let right := fst (display_pos dd) + fst (display_size dd) in
    let top := snd (display_pos dd) in
    let bottom := snd (display_pos dd) + snd (display_size dd) in
    ~ (right == left) -> ~ (top == bottom) ->
    c0 (mat_apply (projection dd) (mkV4 left y z 1)) == -1
    /\ c0 (mat_apply (projection dd) (mkV4 right y z 1)) == 1
    /\ c1 (mat_apply (projection dd) (mkV4 x top z 1)) == 1
    /\ c1 (mat_apply (projection dd) (mkV4 x bottom z 1)) == -1
    /\ c2 (projection dd).(col2) == -1
    /\ c2 (mat_apply (projection dd) (mkV4 x y z 1)) == -1 * z
    /\ c3 (mat_apply (projection dd) (mkV4 x y z 1)) == 1.
Proof.
  intros dd x y z left right top bottom.
  unfold left, right, top, bottom, mat_apply, projection; simpl.
  generalize (fst (display_pos dd)) (fst (display_size dd))
             (snd (display_pos dd)) (snd (display_size dd)).
  intros l w t h Hrl Htb.
  assert (Hw : ~ (w == 0)) by (intros H; apply Hrl; lra).
  assert (Hh : ~ (h == 0)) by (intros H; apply Htb; lra).
  assert (Hrl' : ~ (l + w - l == 0)) by (intros H; apply Hrl; lra).
  assert (Hlr' : ~ (l - (l + w) == 0)) by (intros H; apply Hrl; lra).
  assert (Htb' : ~ (t - (t + h) == 0)) by (intros H; apply Htb; lra).
  assert (Hbt' : ~ (t + h - t == 0)) by (intros H; apply Htb; lra).
  repeat split; try reflexivity; field; auto.
Qed.

Lemma projection_maps_display_rect_witness :
  let dd := one_command_frame (800, 600) (1, 1) (mkV4 0 0 10 10) usize_max 0 in
  let left := fst (display_pos dd) in
  let right := fst (display_pos dd) + fst (display_size dd) in
  let top := snd (display_pos dd) in
  let bottom := snd (display_pos dd) + snd (display_size dd) in
  ~ (right == left) /\ ~ (top == bottom)
  /\ (c0 (mat_apply (projection dd) (mkV4 left 0 0 1)) == -1
      /\ c0 (mat_apply (projection dd) (mkV4 right 0 0 1)) == 1
      /\ c1 (mat_apply (projection dd) (mkV4 0 top 0 1)) == 1
      /\ c1 (mat_apply (projection dd) (mkV4 0 bottom 0 1)) == -1
      /\ c2 (projection dd).(col2) == -1
      /\ c2 (mat_apply (projection dd) (mkV4 0 0 0 1)) == -1 * 0
      /\ c3 (mat_apply (projection dd) (mkV4 0 0 0 1)) == 1).
Proof.
  intros dd left right top bottom.
  assert (H1 : ~ (right == left)) by (intros H; vm_compute in H; discriminate H).
  assert (H2 : ~ (top == bottom)) by (intros H; vm_compute in H; discriminate H).
  split; [exact H1 | split; [exact H2 |]].
  exact (projection_maps_display_rect dd 0 0 0 H1 H2).
Defined.

(** C8 (as stated, refuted): [Textures::insert] hands out [next] without
    skipping the sentinel, so in a registry whose counter is [usize::MAX]
    the inserted texture gets the sentinel identifier, which resolves to the
    font atlas, and still does after the removal (release build; a debug
    build panics on [self.next += 1] and yields no identifier at all). *)
Lemma registry_roundtrip_counterexample :
  let '(id, r1) := renderer_insert_texture exhausted_renderer sample_user_texture in
  id = usize_max
  /\ lookup_texture r1 id = inl sample_font
  /\ lookup_texture r1 id <> inl sample_user_texture
  /\ lookup_texture (renderer_remove_texture r1 id) id = inl sample_font.
Proof. vm_compute. split; [reflexivity | split; [reflexivity | split; [discriminate | reflexivity]]]. Qed.

(** C8 (amended): in every registry state whose counter [next] is not the
    sentinel [usize::MAX] (every state reached from [Textures::new] by fewer
    than [usize::MAX] insertions), inserting a texture yields a non-sentinel
    identifier resolving to that texture, and once that identifier is
    removed, resolving it fails with [BadTexture] carrying it.  In every
    state whose counter is [usize::MAX], inserting hands out the sentinel
    itself, which resolves to the font atlas both before and after the
    removal. *)
Theorem registry_insert_resolve_remove :
  (forall (r : Renderer) (t : TextureEntry),
     next (textures r) <> usize_max ->
     let '(id, r1) := renderer_insert_texture r t in
     id <> usize_max
     /\ lookup_texture r1 id = inl t
     /\ lookup_texture (renderer_remove_texture r1 id) id = inr (BadTexture id))
  /\ (forall (r : Renderer) (t : TextureEntry),
     next (textures r) = usize_max ->
     let '(id, r1) := renderer_insert_texture r t in
     id = usize_max
     /\ lookup_texture r1 id = inl (font_texture r)
     /\ lookup_texture (renderer_remove_texture r1 id) id = inl (font_texture r)).
Proof.
  split.
  - intros r t Hnext. unfold renderer_insert_texture, Textures_insert. simpl.
    split; [exact Hnext |].
    unfold lookup_texture, renderer_remove_texture, Textures_remove, Textures_get; simpl.
    apply N.eqb_neq in Hnext. rewrite Hnext. split.
    + by rewrite lookup_insert_eq.
    + by rewrite lookup_delete_eq.
  - intros r t Hnext. unfold renderer_insert_texture, Textures_insert. simpl.
    split; [exact Hnext |].
    unfold lookup_texture, renderer_remove_texture; simpl.
    rewrite Hnext, N.eqb_refl. split; reflexivity.
Qed.

Lemma registry_insert_resolve_remove_witness :
  (next (textures sample_renderer) <> usize_max
   /\ (let '(id, r1) := renderer_insert_texture sample_renderer sample_user_texture in
       id <> usize_max
       /\ lookup_texture r1 id = inl sample_user_texture
       /\ lookup_texture (renderer_remove_texture r1 id) id = inr (BadTexture id)))
  /\ (next (textures exhausted_renderer) = usize_max
      /\ (let '(id, r1) := renderer_insert_texture exhausted_renderer sample_user_texture in
          id = usize_max
          /\ lookup_texture r1 id = inl (font_texture exhausted_renderer)
          /\ lookup_texture (renderer_remove_texture r1 id) id = inl (font_texture exhausted_renderer))).
Proof.
  assert (H : next (textures sample_renderer) <> usize_max) by (vm_compute; discriminate).
  assert (H' : next (textures exhausted_renderer) = usize_max) by reflexivity.
  split.
  - split; [exact H | exact (proj1 registry_insert_resolve_remove sample_renderer sample_user_texture H)].
  - split; [exact H' | exact (proj2 registry_insert_resolve_remove exhausted_renderer sample_user_texture H')].
Defined.

(** ** Panics *)

Lemma rbind_rret {A B} (a : A) (k : A -> RM B) : rbind (rret a) k = k a.
Proof. reflexivity. Qed.

Lemma rbind_no_panic {A B} (m : RM A) (k : A -> RM B) :
  no_panic m -> (forall a, no_panic (k a)) -> no_panic (rbind m k).
Proof.
  intros Hm Hk s p. unfold rbind. specialize (Hm s p).
  destruct (m s) as [s' o]. simpl in Hm.
  destruct o; simpl; [apply Hk | discriminate |].
  intros E. injection E as ->. apply Hm; reflexivity.
Qed.

Lemma for_each_no_panic {A} (xs : list A) f :
  (forall x, In x xs -> no_panic (f x)) -> no_panic (for_each xs f).
Proof.
  induction xs as [|x xs IH]; simpl; intros Hf.
  - intros s p; discriminate.
  - apply rbind_no_panic; [apply Hf; auto | intros _; apply IH; auto].
Qed.

Lemma buffer_slice_from_ok {A} (b : list A) start :
  (start <= length b)%nat -> exists l, buffer_slice b start (length b) = Some l.
Proof.
  intros H. unfold buffer_slice. apply Nat.leb_le in H. rewrite H, Nat.leb_refl. eauto.
Qed.

Lemma buffer_slice_range_ok {A} (b : list A) start n :
  (start + n <= length b)%nat -> exists l, buffer_slice b start (start + n) = Some l.
Proof.
  intros H. unfold buffer_slice.
  assert (H1 : Nat.leb start (start + n) = true) by (apply Nat.leb_le; lia).
  apply Nat.leb_le in H. rewrite H1, H. eauto.
Qed.

Lemma lookup_texture_err r id e : lookup_texture r id = inr e -> e = BadTexture id.
Proof.
  unfold lookup_texture. destruct (N.eqb id usize_max); [discriminate |].
  destruct (Textures_get id (textures r)); [discriminate |]. congruence.
Qed.

Lemma buffer_slice_from_eq {A} (b vs : list A) start :
  buffer_slice b start (length b) = Some vs -> vs = skipn start b.
Proof.
  unfold buffer_slice. destruct (_ && _)%bool; [| discriminate].
  intros H. injection H as <-. apply firstn_all2. rewrite length_skipn. lia.
Qed.

Lemma buffer_slice_range_eq {A} (b is : list A) start n :
  buffer_slice b start (start + n) = Some is -> is = firstn n (skipn start b).
Proof.
  unfold buffer_slice. destruct (_ && _)%bool; [| discriminate].
  intros H. injection H as <-. f_equal. lia.
Qed.

Lemma render_elements_no_panic bk m fw fh vb ib n cr tid vo io :
  (vo <= length vb)%nat -> (io + n <= length ib)%nat ->
  no_panic (render_elements bk m fw fh vb ib n cr tid vo io).
Proof.
  intros Hv Hi. unfold render_elements.
  destruct (clip_visible fw fh cr); [| intros s p; discriminate].
  destruct (buffer_slice_from_ok vb vo Hv) as [vs Hvs].
  destruct (buffer_slice_range_ok ib io n Hi) as [is His].
  apply rbind_no_panic; [intros s p; discriminate | intros self].
  apply rbind_no_panic; [destruct (lookup_texture self tid); intros s p; discriminate | intros tex].
  rewrite Hvs. apply rbind_no_panic; [intros s p; discriminate | intros vs'].
  rewrite His. apply rbind_no_panic; [intros s p; discriminate | intros is'].
  destruct (surface_draw bk _); intros s p; discriminate.
Qed.

(** C10 (as stated, refuted): a surviving command whose texture does not
    resolve returns [BadTexture] before the buffer slices are taken, so an
    out-of-range [vtx_offset] (here 10 for 3 vertices) does not panic. *)
Lemma offset_panic_counterexample :
  let dd := one_command_frame (800, 600) (1, 1) (mkV4 0 0 10 10) 7%N 10 in
  (length (vtx_buffer (hd (Build_DrawList [] [] []) (draw_lists dd))) < 10)%nat
  /\ snd (run_render accepting_backend sample_renderer dd) = Err (BadTexture 7%N).
Proof. vm_compute. split; [repeat constructor | reflexivity]. Qed.

(** C10 (amended): for a surviving [Elements] command whose texture
    identifier resolves, [render] panics (through [expect], not with a
    [RendererError]) when [vtx_offset] exceeds the vertex count or
    [idx_offset + count] exceeds the index count, leaving the renderer and
    the effect log as they were; for a surviving command whose identifier
    does not resolve, [render] returns [BadTexture] of that identifier before
    the offsets are looked at, whatever they are; when every [Elements]
    command of every draw list has its offsets in range, [render] never
    panics. *)
Theorem offsets_out_of_range_panic :
  (forall bk matrix fw fh vb ib count cr tid vo io (s : St) tex,
     clip_visible fw fh cr = true ->
     lookup_texture (fst s) tid = inl tex ->
     (length vb < vo \/ length ib < io + count)%nat ->
     exists msg, render_elements bk matrix fw fh vb ib count cr tid vo io s = (s, Panic msg))
  /\ (forall bk matrix fw fh vb ib count cr tid vo io (s : St) e,
     clip_visible fw fh cr = true ->
     lookup_texture (fst s) tid = inr e ->
     e = BadTexture tid
     /\ render_elements bk matrix fw fh vb ib count cr tid vo io s = (s, Err (BadTexture tid)))
  /\ (forall bk dd (s : St),
     (forall dl, In dl (draw_lists dd) -> forall count p, In (Elements count p) (commands dl) ->
        (vtx_offset p <= length (vtx_buffer dl) /\ idx_offset p + count <= length (idx_buffer dl))%nat) ->
     forall msg, snd (render bk dd s) <> Panic msg).
Proof.
  split; [| split].
  - intros bk matrix fw fh vb ib count cr tid vo io s tex Hvis Hlook Hout.
    unfold render_elements. rewrite Hvis. unfold rbind at 1; simpl.
    unfold rbind at 1; simpl. rewrite Hlook. simpl.
    unfold buffer_slice at 1.
    destruct (Nat.leb_spec vo (length vb)) as [Hv | Hv]; simpl.
    + rewrite Nat.leb_refl. simpl.
      unfold buffer_slice.
      destruct (Nat.leb_spec (io + count) (length ib)) as [Hi | Hi]; [lia |].
      rewrite andb_false_r. simpl. eauto.
    + simpl. eauto.
  - intros bk matrix fw fh vb ib count cr tid vo io s e Hvis Hlook.
    pose proof (lookup_texture_err _ _ _ Hlook) as ->. split; [reflexivity |].
    unfold render_elements. rewrite Hvis. unfold rbind at 1; simpl.
    unfold rbind at 1; simpl. rewrite Hlook. reflexivity.
  - intros bk dd s Hin msg. revert s msg.
    unfold render. destruct (fb_size dd) as [fw fh].
    destruct (negb _); [intros s msg; discriminate |].
    apply for_each_no_panic. intros dl Hdl. unfold render_list.
    destruct (vertex_buffer_immutable bk (vtx_buffer dl));
      [intros s' p; unfold rbind, throw; simpl; discriminate |].
    rewrite rbind_rret.
    destruct (index_buffer_immutable bk (idx_buffer dl));
      [intros s' p; unfold rbind, throw; simpl; discriminate |].
    rewrite rbind_rret.
    apply for_each_no_panic. intros c Hc. destruct c as [count p | | cb raw]; simpl.
    + destruct (Hin dl Hdl count p Hc) as [Hv Hi].
      apply render_elements_no_panic; assumption.
    + intros s' p'; discriminate.
    + intros s' p'; discriminate.
Qed.

Lemma offsets_out_of_range_panic_witness :
  (exists msg,
     render_elements accepting_backend (projection (one_command_frame (800, 600) (1, 1) (mkV4 0 0 10 10) usize_max 10))
       800 600 [sample_vert; sample_vert; sample_vert] [0; 1; 2]%N 3 (mkV4 0 0 10 10) usize_max 10 0
       (sample_renderer, [])
     = ((sample_renderer, []), Panic msg))
  /\ (BadTexture 7%N = BadTexture 7%N
      /\ render_elements accepting_backend (projection (one_command_frame (800, 600) (1, 1) (mkV4 0 0 10 10) 7%N 10))
           800 600 [sample_vert; sample_vert; sample_vert] [0; 1; 2]%N 3 (mkV4 0 0 10 10) 7%N 10 0
           (sample_renderer, [])
         = ((sample_renderer, []), Err (BadTexture 7%N)))
  /\ (forall msg, snd (render accepting_backend
                        (one_command_frame (800, 600) (1, 1) (mkV4 0 0 10 10) usize_max 0)
                        (sample_renderer, [])) <> Panic msg).
Proof.
  split; [| split].
  - apply (proj1 offsets_out_of_range_panic) with (tex := sample_font);
      [vm_compute; reflexivity | reflexivity | left; simpl; lia].
  - apply (proj1 (proj2 offsets_out_of_range_panic)); [vm_compute; reflexivity | reflexivity].
  - apply (proj2 (proj2 offsets_out_of_range_panic)).
    intros dl Hdl count p Hc. simpl in Hdl. destruct Hdl as [Hdl | []]. subst dl.
    simpl in Hc. destruct Hc as [Hc | []]. injection Hc as <- <-. simpl. lia.
Defined.

(** ** Draw calls issued by [render] *)

Lemma draw_events_app l1 l2 : draw_events (l1 ++ l2) = draw_events l1 ++ draw_events l2.
Proof. apply flat_map_app. Qed.

(** What a successful [Elements] arm did to the state. *)
Lemma render_elements_ok bk m fw fh vb ib n cr tid vo io (s s' : St) :
  render_elements bk m fw fh vb ib n cr tid vo io s = (s', Ok tt) ->
  (clip_visible fw fh cr = false /\ s' = s)
  \/ (clip_visible fw fh cr = true
      /\ exists dc, s' = (fst s, snd s ++ [EvDraw dc]) /\ dc_scissor dc = scissor_rect fh cr).
Proof.
  unfold render_elements. destruct (clip_visible fw fh cr) eqn:Hv.
  - unfold rbind, get_self, try_res, expect, throw, emit, rret; simpl.
    destruct (lookup_texture (fst s) tid); simpl; [| discriminate].
    destruct (buffer_slice vb vo (length vb)); simpl; [| discriminate].
    destruct (buffer_slice ib io (io + n)); simpl; [| discriminate].
    destruct (surface_draw bk _); simpl; [discriminate |].
    intros H. injection H as <-. right. split; [reflexivity |]. eexists; split; reflexivity.
  - unfold rret. intros H. injection H as <-. left. auto.
Qed.

Lemma clip_visible_spec_culled fw fh cr : clip_visible fw fh cr = negb (spec_culled fw fh cr).
Proof.
  unfold clip_visible, spec_culled, f32_lt, f32_le.
  destruct (Qle_bool fw (c0 cr)), (Qle_bool fh (c1 cr)), (Qle_bool 0 (c2 cr)), (Qle_bool 0 (c3 cr));
    reflexivity.
Qed.

Lemma spec_culled_iff fw fh cr :
  spec_culled fw fh cr = true <-> (fw <= c0 cr \/ fh <= c1 cr \/ c2 cr < 0 \/ c3 cr < 0).
Proof.
  unfold spec_culled. rewrite !orb_true_iff, !Qle_bool_iff, !f32_lt_spec. tauto.
Qed.

Lemma length_filter_sum {A} (g : A -> bool) (l : list A) :
  length (List.filter g l) = list_sum (map (fun x => if g x then 1%nat else 0%nat) l).
Proof. induction l as [|x l IH]; simpl; [reflexivity|]. destruct (g x); simpl; lia. Qed.

Lemma for_each_ok_draws {A} (xs : list A) (f : A -> RM unit) (w : A -> nat) :
  (forall x, In x xs -> forall s s', f x s = (s', Ok tt) -> dcount s' = (dcount s + w x)%nat) ->
  forall s s', for_each xs f s = (s', Ok tt) -> dcount s' = (dcount s + list_sum (map w xs))%nat.
Proof.
  induction xs as [|x xs IH]; simpl; intros Hf s s' H.
  - injection H as <-. lia.
  - unfold rbind in H. destruct (f x s) as [s1 o] eqn:E. destruct o as [[]| |]; try discriminate.
    rewrite (IH (fun y Hy => Hf y (or_intror Hy)) s1 s' H), (Hf x (or_introl eq_refl) s s1 E). lia.
Qed.

Lemma render_list_ok_draws bk dd fw fh dl (s s' : St) :
  render_list bk dd (projection dd) fw fh dl s = (s', Ok tt) ->
  dcount s' = (dcount s + length (List.filter (fun c => match c with
                             | Elements _ p =>
                                 negb (spec_culled fw fh
                                   (transform_clip (display_pos dd) (framebuffer_scale dd) (clip_rect p)))
                             | _ => false
                             end) (commands dl)))%nat.
Proof.
  unfold render_list.
  destruct (vertex_buffer_immutable bk (vtx_buffer dl)); [unfold rbind, throw; simpl; discriminate |].
  rewrite rbind_rret.
  destruct (index_buffer_immutable bk (idx_buffer dl)); [unfold rbind, throw; simpl; discriminate |].
  rewrite rbind_rret. rewrite length_filter_sum.
  apply for_each_ok_draws. intros c _ s1 s2 H. destruct c as [count p | | cb raw]; simpl in H |- *.
  - apply render_elements_ok in H. rewrite <- clip_visible_spec_culled.
    destruct H as [[-> ->] | [-> [dc [-> _]]]]; unfold dcount; simpl;
      [lia | rewrite draw_events_app, length_app; simpl; lia].
  - injection H as <-. lia.
  - injection H as <-. unfold dcount; simpl. rewrite draw_events_app, length_app; simpl; lia.
Qed.

(** C1: in a frame with a positive framebuffer [fw x fh], an [Elements]
    command is culled exactly when its clip rectangle, transformed by
    [(clip - display_pos) * framebuffer_scale], has left edge [>= fw], top
    edge [>= fh], right edge [< 0] or bottom edge [< 0]: such a command
    issues nothing and succeeds; any other command, when it succeeds, issues
    exactly one draw call; and a successful [render] issues exactly as many
    draw calls as the frame has commands not culled by that condition. *)
Theorem render_culls_exactly :
  forall (bk : Backend) (dd : DrawData) (fw fh : Q),
    fb_size dd = (fw, fh) -> 0 < fw -> 0 < fh ->
    (forall vb ib count p (s : St),
       let cr := transform_clip (display_pos dd) (framebuffer_scale dd) (clip_rect p) in
       ((fw <= c0 cr \/ fh <= c1 cr \/ c2 cr < 0 \/ c3 cr < 0) ->
          render_cmd bk dd (projection dd) fw fh vb ib (Elements count p) s = (s, Ok tt))
       /\ (~ (fw <= c0 cr \/ fh <= c1 cr \/ c2 cr < 0 \/ c3 cr < 0) ->
          forall s', render_cmd bk dd (projection dd) fw fh vb ib (Elements count p) s = (s', Ok tt) ->
          exists dc, s' = (fst s, snd s ++ [EvDraw dc])))
    /\ (forall (self : Renderer) (s' : St),
          run_render bk self dd = (s', Ok tt) ->
          length (draw_events (snd s')) = count_surviving dd fw fh).
Proof.
  intros bk dd fw fh Hfb Hw Hh. split.
  - intros vb ib count p s cr.
    change (render_cmd bk dd (projection dd) fw fh vb ib (Elements count p))
      with (render_elements bk (projection dd) fw fh vb ib count cr
              (texture_id p) (vtx_offset p) (idx_offset p)).
    split.
    + intros Hc. apply spec_culled_iff in Hc.
      unfold render_elements. rewrite clip_visible_spec_culled, Hc. reflexivity.
    + intros Hc s' H. apply render_elements_ok in H.
      rewrite clip_visible_spec_culled in H.
      destruct H as [[Hv _] | [_ [dc [Hs _]]]]; [| eauto].
      exfalso. apply Hc. apply spec_culled_iff. destruct (spec_culled fw fh cr); [reflexivity | discriminate].
  - intros self s' H. unfold run_render, render in H. rewrite Hfb in H.
    assert (Hpos : f32_lt 0 fw = true /\ f32_lt 0 fh = true) by (rewrite !f32_lt_spec; auto).
    destruct Hpos as [Hw' Hh']. rewrite Hw', Hh' in H. simpl in H.
    change (length (draw_events (snd s'))) with (dcount s').
    rewrite (for_each_ok_draws _ _ _ (fun dl _ s1 s2 E => render_list_ok_draws bk dd fw fh dl s1 s2 E)
               (self, []) s' H).
    reflexivity.
Qed.

Lemma render_culls_exactly_witness :
  let dd := one_command_frame (800, 600) (1, 1) (mkV4 (-10) (-10) 810 610) usize_max 0 in
  fb_size dd = (800, 600) /\ 0 < 800 /\ 0 < 600
  /\ length (draw_events (snd (fst (run_render accepting_backend sample_renderer dd))))
     = count_surviving dd 800 600.
Proof.
  intros dd.
  assert (Hfb : fb_size dd = (800, 600)) by reflexivity.
  assert (Hw : 0 < 800) by (vm_compute; reflexivity).
  assert (Hh : 0 < 600) by (vm_compute; reflexivity).
  split; [exact Hfb | split; [exact Hw | split; [exact Hh |]]].
  apply (proj2 (render_culls_exactly accepting_backend dd 800 600 Hfb Hw Hh) sample_renderer).
  vm_compute. reflexivity.
Defined.

(** ** Provenance of the issued draw calls *)

Lemma rbind_logs_only {A B} P (m : RM A) (k : A -> RM B) :
  logs_only P m -> (forall a, logs_only P (k a)) -> logs_only P (rbind m k).
Proof.
  intros Hm Hk s. unfold rbind. destruct (Hm s) as [l1 [H1 P1]].
  destruct (m s) as [s' o]. simpl in H1.
  destruct o; simpl; try (exists l1; split; assumption).
  destruct (Hk a s') as [l2 [H2 P2]]. exists (l1 ++ l2). split.
  - rewrite H2, H1, app_assoc. reflexivity.
  - intros dc Hdc. apply in_app_or in Hdc. destruct Hdc; auto.
Qed.

Lemma for_each_logs_only {A} P (xs : list A) f :
  (forall x, In x xs -> logs_only P (f x)) -> logs_only P (for_each xs f).
Proof.
  induction xs as [|x xs IH]; simpl; intros Hf.
  - intros s. exists []. split; [symmetry; apply app_nil_r | intros dc []].
  - apply rbind_logs_only; [apply Hf; auto | intros _; apply IH; auto].
Qed.

Lemma nothing_logged {A} P (m : RM A) :
  (forall s, fst (m s) = s) -> logs_only P m.
Proof. intros H s. exists []. rewrite H. split; [symmetry; apply app_nil_r | intros dc []]. Qed.

Lemma render_elements_logs bk m fw fh vb ib n cr tid vo io :
  logs_only (fun dc => clip_visible fw fh cr = true /\ dc_scissor dc = scissor_rect fh cr)
    (render_elements bk m fw fh vb ib n cr tid vo io).
Proof.
  intros s. unfold render_elements. destruct (clip_visible fw fh cr) eqn:Hv.
  - unfold rbind, get_self, try_res, expect, throw, emit, rret; simpl.
    destruct (lookup_texture (fst s) tid);
      [| exists []; split; [symmetry; apply app_nil_r | intros dc []]]; simpl.
    destruct (buffer_slice vb vo (length vb));
      [| exists []; split; [symmetry; apply app_nil_r | intros dc []]]; simpl.
    destruct (buffer_slice ib io (io + n));
      [| exists []; split; [symmetry; apply app_nil_r | intros dc []]]; simpl.
    destruct (surface_draw bk _); simpl;
      [exists []; split; [symmetry; apply app_nil_r | intros dc []] |].
    eexists; split; [reflexivity |]. intros dc [Hdc | []]. injection Hdc as <-. auto.
  - exists []. split; [symmetry; apply app_nil_r | intros dc []].
Qed.

Lemma render_logs bk dd :
  logs_only (drawn_from dd (fst (fb_size dd)) (snd (fb_size dd))) (render bk dd).
Proof.
  unfold render. destruct (fb_size dd) as [fw fh]. simpl.
  destruct (negb _); [apply nothing_logged; reflexivity |].
  apply for_each_logs_only. intros dl Hdl. unfold render_list.
  destruct (vertex_buffer_immutable bk (vtx_buffer dl)); [apply nothing_logged; reflexivity |].
  rewrite rbind_rret.
  destruct (index_buffer_immutable bk (idx_buffer dl)); [apply nothing_logged; reflexivity |].
  rewrite rbind_rret.
  apply for_each_logs_only. intros c Hc. destruct c as [count p | | cb raw]; simpl.
  - intros s. destruct (render_elements_logs bk (projection dd) fw fh (vtx_buffer dl) (idx_buffer dl)
                          count (transform_clip (display_pos dd) (framebuffer_scale dd) (clip_rect p))
                          (texture_id p) (vtx_offset p) (idx_offset p) s) as [l [Hl Pl]].
    exists l. split; [exact Hl |]. intros dc Hdc. destruct (Pl dc Hdc) as [Hv Hs].
    exists dl, count, p. auto.
  - apply nothing_logged; reflexivity.
  - intros s. exists [EvCallback cb raw]. split; [reflexivity |]. intros dc [Hdc | []]; discriminate.
Qed.

Lemma f32_max_0_Qmax x : f32_max 0 x == Qmax 0 x.
Proof.
  unfold f32_max. destruct (Qle_bool 0 x) eqn:E.
  - apply Qle_bool_iff in E. symmetry. apply Q.max_r. exact E.
  - assert (x <= 0).
    { apply Qlt_le_weak, Qnot_le_lt. intros H. apply Qle_bool_iff in H. congruence. }
    symmetry. apply Q.max_l. assumption.
Qed.

Lemma Qfloor_eq p q : p == q -> Qfloor p = Qfloor q.
Proof.
  intros H. apply Z.le_antisymm; apply Qfloor_resp_le; rewrite H; apply Qle_refl.
Qed.

Lemma as_u32_range z : (0 <= as_u32 z <= u32_max)%Z.
Proof. unfold as_u32, u32_max. lia. Qed.

(** C2 (as stated, refuted): the scissor fields are integers, so they are
    not the rational edges themselves: for the clip rectangle
    [[0.5, 0, 10, 10]] of a 800x600 frame the scissor is
    [left 0, bottom 590, width 10, height 10], while [max(0, 0.5) = 0.5] and
    [|10 - 0.5| = 9.5]. *)
Lemma scissor_counterexample :
  scissors_of (run_render accepting_backend sample_renderer
    (one_command_frame (800, 600) (1, 1) (mkV4 (1 # 2) 0 10 10) usize_max 0))
  = [ {| left := 0; bottom := 590; width := 10; height := 10 |} ]
  /\ ~ (inject_Z 0 == f32_max 0 (1 # 2))
  /\ ~ (inject_Z 10 == Qabs (10 - (1 # 2))).
Proof.
  split; [vm_compute; reflexivity |].
  split; intros H; vm_compute in H; discriminate H.
Qed.

(** C2 (amended): every draw call [render] issues comes from a surviving
    [Elements] command of the frame, and with [cr] its transformed clip
    rectangle and [fh] the framebuffer height its scissor rectangle is
    [left = floor(max(0, cr.left))], [bottom = floor(max(0, fh - cr.bottom))]
    (vertically flipped), [width = ceil(|cr.right - cr.left|)],
    [height = ceil(|cr.bottom - cr.top|)], each cast with saturation into
    the [u32] range; in particular both origin coordinates are
    non-negative. *)
Theorem scissor_rect_of_draw :
  forall (bk : Backend) (self : Renderer) (dd : DrawData) (dc : DrawCall),
    In (EvDraw dc) (snd (fst (run_render bk self dd))) ->
    exists dl count p,
      In dl (draw_lists dd) /\ In (Elements count p) (commands dl)
      /\ let cr := transform_clip (display_pos dd) (framebuffer_scale dd) (clip_rect p) in
         let fh := snd (fb_size dd) in
         clip_visible (fst (fb_size dd)) fh cr = true
         /\ left (dc_scissor dc) = as_u32 (Qfloor (Qmax 0 (c0 cr)))
         /\ bottom (dc_scissor dc) = as_u32 (Qfloor (Qmax 0 (fh - c3 cr)))
         /\ width (dc_scissor dc) = as_u32 (Qceiling (Qabs (c2 cr - c0 cr)))
         /\ height (dc_scissor dc) = as_u32 (Qceiling (Qabs (c3 cr - c1 cr)))
         /\ (0 <= left (dc_scissor dc) <= u32_max)%Z
         /\ (0 <= bottom (dc_scissor dc) <= u32_max)%Z.
Proof.
  intros bk self dd dc Hin. unfold run_render in Hin.
  destruct (render_logs bk dd (self, [])) as [l [Hl Pl]].
  rewrite Hl in Hin. simpl in Hin.
  destruct (Pl dc Hin) as [dl [count [p [Hdl [Hc [Hv Hs]]]]]].
  exists dl, count, p. split; [exact Hdl | split; [exact Hc |]].
  intros cr fh. subst cr fh. rewrite Hs. unfold scissor_rect. cbn [left bottom width height].
  rewrite !(Qfloor_eq _ _ (f32_max_0_Qmax _)).
  repeat split; try reflexivity; try exact Hv; apply as_u32_range.
Qed.

Lemma scissor_rect_of_draw_witness :
  let dd := one_command_frame (800, 600) (1, 1) (mkV4 (-10) (-10) 810 610) usize_max 0 in
  let dc := hd (Build_DrawCall [] [] 1%positive (projection dd) sample_font draw_blend
                  {| left := 0; bottom := 0; width := 0; height := 0 |})
               (draw_events (snd (fst (run_render accepting_backend sample_renderer dd)))) in
  In (EvDraw dc) (snd (fst (run_render accepting_backend sample_renderer dd)))
  /\ (exists dl count p,
      In dl (draw_lists dd) /\ In (Elements count p) (commands dl)
      /\ let cr := transform_clip (display_pos dd) (framebuffer_scale dd) (clip_rect p) in
         let fh := snd (fb_size dd) in
         clip_visible (fst (fb_size dd)) fh cr = true
         /\ left (dc_scissor dc) = as_u32 (Qfloor (Qmax 0 (c0 cr)))
         /\ bottom (dc_scissor dc) = as_u32 (Qfloor (Qmax 0 (fh - c3 cr)))
         /\ width (dc_scissor dc) = as_u32 (Qceiling (Qabs (c2 cr - c0 cr)))
         /\ height (dc_scissor dc) = as_u32 (Qceiling (Qabs (c3 cr - c1 cr)))
         /\ (0 <= left (dc_scissor dc) <= u32_max)%Z
         /\ (0 <= bottom (dc_scissor dc) <= u32_max)%Z).
Proof.
  intros dd dc.
  assert (H : In (EvDraw dc) (snd (fst (run_render accepting_backend sample_renderer dd))))
    by (vm_compute; left; reflexivity).
  split; [exact H | exact (scissor_rect_of_draw accepting_backend sample_renderer dd dc H)].
Defined.

(** ** Errors *)


Lemma for_each_app_err {A} (xs : list A) y ys f (s s1 s2 : St) e :
  for_each xs f s = (s1, Ok tt) -> f y s1 = (s2, Err e) ->
  for_each (xs ++ y :: ys) f s = (s2, Err e).
Proof.
  revert s. induction xs as [|x xs IH]; simpl; intros s H1 H2.
  - injection H1 as <-. unfold rbind. rewrite H2. reflexivity.
  - unfold rbind in H1 |- *. destruct (f x s) as [s' o]. destruct o as [[]| |]; try discriminate.
    apply IH; assumption.
Qed.

Lemma render_elements_err bk m fw fh vb ib n cr tid vo io (s s' : St) e :
  render_elements bk m fw fh vb ib n cr tid vo io s = (s', Err e) ->
  s' = s /\ (e = BadTexture tid \/ exists de, e = Draw de).
Proof.
  unfold render_elements. destruct (clip_visible fw fh cr); [| discriminate].
  unfold rbind, get_self, try_res, expect, throw, emit, rret; simpl.
  destruct (lookup_texture (fst s) tid) eqn:E; simpl.
  - destruct (buffer_slice vb vo (length vb)); simpl; [| discriminate].
    destruct (buffer_slice ib io (io + n)); simpl; [| discriminate].
    destruct (surface_draw bk _); simpl; [| discriminate].
    intros H. injection H as <- <-. eauto.
  - intros H. injection H as <- <-. apply lookup_texture_err in E. auto.
Qed.

Lemma render_cmd_err bk dd m fw fh vb ib c (s s' : St) e :
  render_cmd bk dd m fw fh vb ib c s = (s', Err e) ->
  s' = s /\ exists count p, c = Elements count p
                            /\ (e = BadTexture (texture_id p) \/ exists de, e = Draw de).
Proof.
  destruct c as [count p | | cb raw]; simpl; try discriminate.
  intros H. apply render_elements_err in H. destruct H as [-> H]. eauto.
Qed.

(** C7: in a frame with a positive framebuffer, a failing sub-step stops
    [render] with the matching [RendererError] variant and keeps what was
    already issued: a draw list that fails ends the frame with its error,
    after the effects of the lists before it (and of its own earlier
    commands); vertex and index buffer creation failures give [Vertex] and
    [Index]; a command that fails ends its list, after the effects of the
    commands before it; a command fails only through texture resolution
    ([BadTexture] of its identifier) or draw submission ([Draw]), and then
    issues nothing itself; and both failures do happen: a surviving command
    whose identifier does not resolve fails with [BadTexture] of it, and a
    surviving command whose draw call (in-range slices, resolved texture)
    the surface rejects fails with [Draw] of the rejection. *)
Theorem render_error_stops_without_rollback :
  forall (bk : Backend) (dd : DrawData) (fw fh : Q),
    fb_size dd = (fw, fh) -> 0 < fw -> 0 < fh ->
    (forall self pre dl post (s1 s2 : St) e,
       draw_lists dd = pre ++ dl :: post ->
       for_each pre (render_list bk dd (projection dd) fw fh) (self, []) = (s1, Ok tt) ->
       render_list bk dd (projection dd) fw fh dl s1 = (s2, Err e) ->
       run_render bk self dd = (s2, Err e) /\ exists l, snd s2 = snd s1 ++ l)
    /\ (forall dl (s : St) ve,
       vertex_buffer_immutable bk (vtx_buffer dl) = Some ve ->
       render_list bk dd (projection dd) fw fh dl s = (s, Err (Vertex ve)))
    /\ (forall dl (s : St) ie,
       vertex_buffer_immutable bk (vtx_buffer dl) = None ->
       index_buffer_immutable bk (idx_buffer dl) = Some ie ->
       render_list bk dd (projection dd) fw fh dl s = (s, Err (Index ie)))
    /\ (forall dl cpre c cpost (s s1 s2 : St) e,
       vertex_buffer_immutable bk (vtx_buffer dl) = None ->
       index_buffer_immutable bk (idx_buffer dl) = None ->
       commands dl = cpre ++ c :: cpost ->
       for_each cpre (render_cmd bk dd (projection dd) fw fh (vtx_buffer dl) (idx_buffer dl)) s = (s1, Ok tt) ->
       render_cmd bk dd (projection dd) fw fh (vtx_buffer dl) (idx_buffer dl) c s1 = (s2, Err e) ->
       render_list bk dd (projection dd) fw fh dl s = (s2, Err e) /\ exists l, snd s1 = snd s ++ l)
    /\ (forall vb ib c (s s' : St) e,
       render_cmd bk dd (projection dd) fw fh vb ib c s = (s', Err e) ->
       s' = s /\ exists count p, c = Elements count p
                                 /\ (e = BadTexture (texture_id p) \/ exists de, e = Draw de))
    /\ (forall vb ib count p (s : St) e,
       clip_visible fw fh (transform_clip (display_pos dd) (framebuffer_scale dd) (clip_rect p)) = true ->
       lookup_texture (fst s) (texture_id p) = inr e ->
       render_cmd bk dd (projection dd) fw fh vb ib (Elements count p) s
       = (s, Err (BadTexture (texture_id p))))
    /\ (forall vb ib count p (s : St) tex de,
       clip_visible fw fh (transform_clip (display_pos dd) (framebuffer_scale dd) (clip_rect p)) = true ->
       lookup_texture (fst s) (texture_id p) = inl tex ->
       (vtx_offset p <= length vb)%nat ->
       (idx_offset p + count <= length ib)%nat ->
       surface_draw bk {| dc_vertices := skipn (vtx_offset p) vb;
                          dc_indices := firstn count (skipn (idx_offset p) ib);
                          dc_program := program (fst s); dc_matrix := projection dd;
                          dc_texture := tex; dc_blend := draw_blend;
                          dc_scissor := scissor_rect fh
                            (transform_clip (display_pos dd) (framebuffer_scale dd) (clip_rect p)) |}
       = Some de ->
       render_cmd bk dd (projection dd) fw fh vb ib (Elements count p) s = (s, Err (Draw de))).
Proof.
  intros bk dd fw fh Hfb Hw Hh.
  split; [| split; [| split; [| split; [| split; [| split]]]]].
  - intros self pre dl post s1 s2 e Hl Hpre Hdl. split.
    + unfold run_render, render. rewrite Hfb.
      assert (Hw' : f32_lt 0 fw = true) by (apply f32_lt_spec; exact Hw).
      assert (Hh' : f32_lt 0 fh = true) by (apply f32_lt_spec; exact Hh).
      rewrite Hw', Hh'. simpl. rewrite Hl. eapply for_each_app_err; eassumption.
    + destruct (render_list_extends bk dd (projection dd) fw fh dl s1) as [l Hx].
      rewrite Hdl in Hx. eauto.
  - intros dl s ve Hv. unfold render_list. rewrite Hv. reflexivity.
  - intros dl s ie Hv Hi. unfold render_list. rewrite Hv, rbind_rret, Hi. reflexivity.
  - intros dl cpre c cpost s s1 s2 e Hv Hi Hc Hpre Hcmd. split.
    + unfold render_list. rewrite Hv, rbind_rret, Hi, rbind_rret, Hc.
      eapply for_each_app_err; eassumption.
    + destruct (for_each_extends cpre
                  (render_cmd bk dd (projection dd) fw fh (vtx_buffer dl) (idx_buffer dl))
                  (render_cmd_extends bk dd (projection dd) fw fh (vtx_buffer dl) (idx_buffer dl)) s)
        as [l Hx].
      rewrite Hpre in Hx. eauto.
  - intros vb ib c s s' e H. eapply render_cmd_err; eassumption.
  - intros vb ib count p s e Hvis Hlook. simpl. unfold render_elements. rewrite Hvis.
    unfold rbind, get_self, try_res, throw; simpl. rewrite Hlook. simpl.
    apply lookup_texture_err in Hlook. subst e. reflexivity.
  - intros vb ib count p s tex de Hvis Hlook Hv Hi Hdraw. simpl. unfold render_elements. rewrite Hvis.
    destruct (buffer_slice_from_ok vb (vtx_offset p) Hv) as [vs Hvs].
    destruct (buffer_slice_range_ok ib (idx_offset p) count Hi) as [is His].
    pose proof (buffer_slice_from_eq _ _ _ Hvs) as Evs.
    pose proof (buffer_slice_range_eq _ _ _ _ His) as Eis.
    unfold rbind, get_self, try_res, expect, throw; simpl. rewrite Hlook. simpl.
    rewrite Hvs, His. simpl. subst vs is. rewrite Hdraw. reflexivity.
Qed.

Lemma render_error_stops_without_rollback_witness :
  let s1 := fst (for_each [hd (Build_DrawList [] [] []) (draw_lists two_list_frame)]
                   (render_list accepting_backend two_list_frame (projection two_list_frame) 800 600)
                   (sample_renderer, [])) in
  let dd1 := one_command_frame (800, 600) (1, 1) (mkV4 0 0 10 10) 7%N 0 in
  let p1 := {| clip_rect := mkV4 0 0 10 10; texture_id := 7%N; vtx_offset := 0; idx_offset := 0 |} in
  let dd2 := one_command_frame (800, 600) (1, 1) (mkV4 0 0 10 10) usize_max 0 in
  let p2 := {| clip_rect := mkV4 0 0 10 10; texture_id := usize_max; vtx_offset := 0; idx_offset := 0 |} in
  (length (draw_events (snd s1)) = 1%nat
   /\ run_render accepting_backend sample_renderer two_list_frame = (s1, Err (BadTexture 7%N))
   /\ (exists l, snd s1 = snd s1 ++ l))
  /\ render_cmd accepting_backend dd1 (projection dd1) 800 600 [sample_vert; sample_vert; sample_vert]
       [0; 1; 2]%N (Elements 3 p1) (sample_renderer, [])
     = ((sample_renderer, []), Err (BadTexture 7%N))
  /\ render_cmd rejecting_backend dd2 (projection dd2) 800 600 [sample_vert; sample_vert; sample_vert]
       [0; 1; 2]%N (Elements 3 p2) (sample_renderer, [])
     = ((sample_renderer, []), Err (Draw (DrawErr 1))).
Proof.
  intros s1 dd1 p1 dd2 p2.
  assert (Hw : 0 < 800) by (vm_compute; reflexivity).
  assert (Hh : 0 < 600) by (vm_compute; reflexivity).
  split; [| split].
  - assert (Hfb : fb_size two_list_frame = (800, 600)) by reflexivity.
    split; [vm_compute; reflexivity |].
    apply (proj1 (render_error_stops_without_rollback accepting_backend two_list_frame 800 600 Hfb Hw Hh)
             sample_renderer [hd (Build_DrawList [] [] []) (draw_lists two_list_frame)]
             (nth 1 (draw_lists two_list_frame) (Build_DrawList [] [] [])) []).
    + reflexivity.
    + unfold s1. vm_compute. reflexivity.
    + unfold s1. vm_compute. reflexivity.
  - assert (Hfb : fb_size dd1 = (800, 600)) by reflexivity.
    apply (proj1 (proj2 (proj2 (proj2 (proj2 (proj2
             (render_error_stops_without_rollback accepting_backend dd1 800 600 Hfb Hw Hh)))))))
      with (e := BadTexture 7%N); vm_compute; reflexivity.
  - assert (Hfb : fb_size dd2 = (800, 600)) by reflexivity.
    apply (proj2 (proj2 (proj2 (proj2 (proj2 (proj2
             (render_error_stops_without_rollback rejecting_backend dd2 800 600 Hfb Hw Hh)))))))
      with (tex := sample_font); [vm_compute; reflexivity | vm_compute; reflexivity
                                  | simpl; lia | simpl; lia | reflexivity].
Defined.

(** ** Effect order *)

Lemma for_each_ok_shapes {A} (xs : list A) (f : A -> RM unit) (w : A -> list (Rect + (nat * nat))) :
  (forall x, In x xs -> forall s s', f x s = (s', Ok tt) ->
     map event_shape (snd s') = map event_shape (snd s) ++ w x) ->
  forall s s', for_each xs f s = (s', Ok tt) ->
  map event_shape (snd s') = map event_shape (snd s) ++ flat_map w xs.
Proof.
  induction xs as [|x xs IH]; simpl; intros Hf s s' H.
  - injection H as <-. rewrite app_nil_r. reflexivity.
  - unfold rbind in H. destruct (f x s) as [s1 o] eqn:E. destruct o as [[]| |]; try discriminate.
    rewrite (IH (fun y Hy => Hf y (or_intror Hy)) s1 s' H), (Hf x (or_introl eq_refl) s s1 E).
    rewrite app_assoc. reflexivity.
Qed.

(** In a frame with a positive framebuffer, a successful [render] issues,
    in command order and draw list by draw list, one draw call per
    surviving [Elements] command (with that command's scissor rectangle) and
    one call per [RawCallback] command (with its payload), and nothing for
    culled or [ResetRenderState] commands. *)
Theorem render_effects_in_command_order :
  forall (bk : Backend) (self : Renderer) (dd : DrawData) (fw fh : Q) (s' : St),
    fb_size dd = (fw, fh) -> 0 < fw -> 0 < fh ->
    run_render bk self dd = (s', Ok tt) ->
    map event_shape (snd s') = frame_shapes dd fw fh.
Proof.
  intros bk self dd fw fh s' Hfb Hw Hh H.
  unfold run_render, render in H. rewrite Hfb in H.
  assert (Hw' : f32_lt 0 fw = true) by (apply f32_lt_spec; exact Hw).
  assert (Hh' : f32_lt 0 fh = true) by (apply f32_lt_spec; exact Hh).
  rewrite Hw', Hh' in H. simpl in H.
  apply (for_each_ok_shapes _ _ (fun dl => flat_map (cmd_shapes dd fw fh) (commands dl))) in H.
  - exact H.
  - intros dl _ s1 s2 Hdl. unfold render_list in Hdl.
    destruct (vertex_buffer_immutable bk (vtx_buffer dl)); [discriminate |].
    rewrite rbind_rret in Hdl.
    destruct (index_buffer_immutable bk (idx_buffer dl)); [discriminate |].
    rewrite rbind_rret in Hdl.
    apply (for_each_ok_shapes _ _ (cmd_shapes dd fw fh)) in Hdl; [exact Hdl |].
    intros c _ t1 t2 Hc. destruct c as [count p | | cb raw]; simpl in Hc |- *.
    + apply render_elements_ok in Hc.
      destruct Hc as [[Hv ->] | [Hv [dc [-> Hs]]]]; rewrite Hv; simpl.
      * rewrite app_nil_r. reflexivity.
      * rewrite map_app. simpl. rewrite Hs. reflexivity.
    + injection Hc as <-. rewrite app_nil_r. reflexivity.
    + injection Hc as <-. simpl. rewrite map_app. reflexivity.
Qed.

Lemma render_effects_in_command_order_witness :
  fb_size mixed_frame = (800, 600) /\ 0 < 800 /\ 0 < 600
  /\ run_render accepting_backend sample_renderer mixed_frame
     = (fst (run_render accepting_backend sample_renderer mixed_frame), Ok tt)
  /\ map event_shape (snd (fst (run_render accepting_backend sample_renderer mixed_frame)))
     = frame_shapes mixed_frame 800 600.
Proof.
  assert (Hfb : fb_size mixed_frame = (800, 600)) by reflexivity.
  assert (Hw : 0 < 800) by (vm_compute; reflexivity).
  assert (Hh : 0 < 600) by (vm_compute; reflexivity).
  assert (Hr : run_render accepting_backend sample_renderer mixed_frame
               = (fst (run_render accepting_backend sample_renderer mixed_frame), Ok tt))
    by (vm_compute; reflexivity).
  split; [exact Hfb | split; [exact Hw | split; [exact Hh | split; [exact Hr |]]]].
  exact (render_effects_in_command_order accepting_backend sample_renderer mixed_frame 800 600 _ Hfb Hw Hh Hr).
Defined.

(** ** Draw call arguments *)

Lemma rbind_logs_at {A B} r P (m : RM A) (k : A -> RM B) :
  logs_only_at r P m -> (forall a, logs_only_at r P (k a)) -> logs_only_at r P (rbind m k).
Proof.
  intros Hm Hk L. unfold rbind. destruct (Hm L) as [l1 [R1 [H1 P1]]].
  destruct (m (r, L)) as [[r' L'] o]. simpl in R1, H1. subst r' L'.
  destruct o as [a | e | p]; simpl; try (exists l1; auto; fail).
  destruct (Hk a (L ++ l1)) as [l2 [R2 [H2 P2]]]. exists (l1 ++ l2).
  split; [exact R2 | split].
  - rewrite H2, app_assoc. reflexivity.
  - intros dc Hdc. apply in_app_or in Hdc. destruct Hdc; auto.
Qed.

Lemma for_each_logs_at {A} r P (xs : list A) f :
  (forall x, In x xs -> logs_only_at r P (f x)) -> logs_only_at r P (for_each xs f).
Proof.
  induction xs as [|x xs IH]; simpl; intros Hf.
  - intros L. exists []. simpl. rewrite app_nil_r. split; [reflexivity | split; [reflexivity | intros dc []]].
  - apply rbind_logs_at; [apply Hf; auto | intros _; apply IH; auto].
Qed.

Lemma nothing_logged_at {A} r P (m : RM A) :
  (forall L, fst (m (r, L)) = (r, L)) -> logs_only_at r P m.
Proof.
  intros H L. exists []. rewrite H. simpl. rewrite app_nil_r.
  split; [reflexivity | split; [reflexivity | intros dc []]].
Qed.



Lemma render_elements_logs_at r bk m fw fh vb ib n cr tid vo io :
  logs_only_at r
    (fun dc => clip_visible fw fh cr = true /\ dc_scissor dc = scissor_rect fh cr
               /\ lookup_texture r tid = inl (dc_texture dc) /\ dc_program dc = program r
               /\ dc_matrix dc = m /\ dc_blend dc = draw_blend
               /\ dc_vertices dc = skipn vo vb /\ dc_indices dc = firstn n (skipn io ib))
    (render_elements bk m fw fh vb ib n cr tid vo io).
Proof.
  unfold render_elements. destruct (clip_visible fw fh cr) eqn:Hv;
    [| apply nothing_logged_at; reflexivity].
  intros L. unfold rbind, get_self, try_res, expect, throw, emit, rret; simpl.
  destruct (lookup_texture r tid) eqn:Hl; simpl;
    [| exists []; rewrite app_nil_r; split; [reflexivity | split; [reflexivity | intros dc []]]].
  destruct (buffer_slice vb vo (length vb)) eqn:Hvs; simpl;
    [| exists []; rewrite app_nil_r; split; [reflexivity | split; [reflexivity | intros dc []]]].
  destruct (buffer_slice ib io (io + n)) eqn:His; simpl;
    [| exists []; rewrite app_nil_r; split; [reflexivity | split; [reflexivity | intros dc []]]].
  destruct (surface_draw bk _); simpl;
    [exists []; rewrite app_nil_r; split; [reflexivity | split; [reflexivity | intros dc []]] |].
  eexists; split; [reflexivity | split; [reflexivity |]].
  intros dc [Hdc | []]. injection Hdc as <-. simpl.
  apply buffer_slice_from_eq in Hvs. apply buffer_slice_range_eq in His.
  repeat split; auto.
Qed.

(** Whatever the outcome, every draw call [render] issues belongs to a
    surviving [Elements] command of the frame and is made of: that command's
    scissor rectangle; the texture [lookup_texture] resolves for its
    identifier; the renderer's program; the frame's projection matrix; the
    blend with [SourceAlpha]/[OneMinusSourceAlpha] on colour and
    [One]/[OneMinusSourceAlpha] on alpha; the vertices from [vtx_offset] to
    the end of its list's vertex buffer; and the [count] indices from
    [idx_offset]. *)
Theorem render_draw_call_arguments :
  forall (bk : Backend) (self : Renderer) (dd : DrawData) (dc : DrawCall),
    In (EvDraw dc) (snd (fst (run_render bk self dd))) ->
    draw_args self dd (fst (fb_size dd)) (snd (fb_size dd)) dc.
Proof.
  intros bk self dd dc Hin.
  assert (H : logs_only_at self (draw_args self dd (fst (fb_size dd)) (snd (fb_size dd))) (render bk dd)).
  { unfold render. destruct (fb_size dd) as [fw fh]. simpl.
    destruct (negb _); [apply nothing_logged_at; reflexivity |].
    apply for_each_logs_at. intros dl Hdl. unfold render_list.
    destruct (vertex_buffer_immutable bk (vtx_buffer dl)); [apply nothing_logged_at; reflexivity |].
    rewrite rbind_rret.
    destruct (index_buffer_immutable bk (idx_buffer dl)); [apply nothing_logged_at; reflexivity |].
    rewrite rbind_rret.
    apply for_each_logs_at. intros c Hc. destruct c as [count p | | cb raw]; simpl.
    - intros L.
      destruct (render_elements_logs_at self bk (projection dd) fw fh (vtx_buffer dl) (idx_buffer dl)
                  count (transform_clip (display_pos dd) (framebuffer_scale dd) (clip_rect p))
                  (texture_id p) (vtx_offset p) (idx_offset p) L) as [l [R [Hl Pl]]].
      exists l. split; [exact R | split; [exact Hl |]].
      intros dc' Hdc'. destruct (Pl dc' Hdc') as (Hv & Hs & Ht & Hp & Hm & Hb & Hvs & His).
      exists dl, count, p. repeat split; auto.
    - apply nothing_logged_at; reflexivity.
    - intros L. exists [EvCallback cb raw]. split; [reflexivity | split; [reflexivity |]].
      intros dc' [Hdc' | []]; discriminate. }
  destruct (H []) as [l [_ [Hl Pl]]]. unfold run_render in Hin. rewrite Hl in Hin. exact (Pl dc Hin).
Qed.

Lemma render_draw_call_arguments_witness :
  let dc := hd (Build_DrawCall [] [] 1%positive (projection mixed_frame) sample_font draw_blend
                  {| left := 0; bottom := 0; width := 0; height := 0 |})
               (draw_events (snd (fst (run_render accepting_backend sample_renderer mixed_frame)))) in
  In (EvDraw dc) (snd (fst (run_render accepting_backend sample_renderer mixed_frame)))
  /\ draw_args sample_renderer mixed_frame (fst (fb_size mixed_frame)) (snd (fb_size mixed_frame)) dc.
Proof.
  intros dc.
  assert (H : In (EvDraw dc) (snd (fst (run_render accepting_backend sample_renderer mixed_frame))))
    by (vm_compute; left; reflexivity).
  split; [exact H | exact (render_draw_call_arguments accepting_backend sample_renderer mixed_frame dc H)].
Defined.

(** ** Registry sequences *)

Lemma lookup_texture_registered r id t :
  id <> usize_max -> Textures_get id (textures r) = Some t -> lookup_texture r id = inl t.
Proof.
  intros Hne Hg. unfold lookup_texture. apply N.eqb_neq in Hne. rewrite Hne, Hg. reflexivity.
Qed.

Lemma usize_wrapping_add_small a b : (a + b <= usize_max)%N -> usize_wrapping_add a b = (a + b)%N.
Proof.
  intros H. unfold usize_wrapping_add. apply N.mod_small. unfold usize_max in H.
  assert (0 < 2 ^ 64)%N by (vm_compute; reflexivity). lia.
Qed.

Lemma insert_all_spec (ts : list TextureEntry) (reg : Textures) :
  (next reg + N.of_nat (length ts) <= usize_max)%N ->
  let '(ids, reg') := insert_all ts reg in
  ids = map (fun i => next reg + N.of_nat i)%N (seq 0 (length ts))
  /\ next reg' = (next reg + N.of_nat (length ts))%N
  /\ (forall i t, nth_error ts i = Some t -> Textures_get (next reg + N.of_nat i)%N reg' = Some t)
  /\ (forall id, (id < next reg \/ next reg + N.of_nat (length ts) <= id)%N ->
                 Textures_get id reg' = Textures_get id reg).
Proof.
  revert reg. induction ts as [|t ts IH]; intros reg Hb; simpl.
  - split; [reflexivity | split; [lia | split]].
    + intros [|i] t' H; discriminate.
    + reflexivity.
  - set (reg1 := {| tex_map := <[next reg := t]> (tex_map reg);
                    next := usize_wrapping_add (next reg) 1 |}).
    assert (Hn1 : next reg1 = (next reg + 1)%N)
      by (apply usize_wrapping_add_small; simpl in Hb; lia).
    assert (Hb1 : (next reg1 + N.of_nat (length ts) <= usize_max)%N) by (rewrite Hn1; simpl in Hb; lia).
    specialize (IH reg1 Hb1). unfold Textures_insert. fold reg1.
    destruct (insert_all ts reg1) as [ids reg'] eqn:E.
    destruct IH as (Hids & Hnext & Hget & Hother). rewrite Hn1 in *.
    split; [| split; [| split]].
    + rewrite Hids, <- seq_shift, map_map. simpl. f_equal; [lia |].
      apply map_ext. intros i. lia.
    + rewrite Hnext. lia.
    + intros [|i] t' Hnth; simpl in Hnth.
      * injection Hnth as <-. rewrite Hother by lia. unfold Textures_get. simpl.
        replace (next reg + N.of_nat 0)%N with (next reg) by lia. apply lookup_insert_eq.
      * replace (next reg + N.of_nat (S i))%N with (next reg + 1 + N.of_nat i)%N by lia.
        apply Hget. exact Hnth.
    + intros id Hid. rewrite Hother by lia. unfold Textures_get. simpl.
      apply lookup_insert_ne. lia.
Qed.

(** Registering textures one after another through [textures().insert]
    from a registry whose counter stays below [usize::MAX] hands out the
    consecutive identifiers [next, next + 1, ...]; the [i]-th one resolves
    to the [i]-th texture, the counter advances by the number of textures,
    and identifiers outside that range resolve as before. *)
Theorem insert_all_consecutive_ids :
  forall (r : Renderer) (ts : list TextureEntry),
    (next (textures r) + N.of_nat (length ts) <= usize_max)%N ->
    let '(ids, reg') := insert_all ts (textures r) in
    ids = map (fun i => next (textures r) + N.of_nat i)%N (seq 0 (length ts))
    /\ next reg' = (next (textures r) + N.of_nat (length ts))%N
    /\ (forall i t, nth_error ts i = Some t ->
          lookup_texture (set_textures r reg') (next (textures r) + N.of_nat i)%N = inl t)
    /\ (forall id, (id < next (textures r) \/ next (textures r) + N.of_nat (length ts) <= id)%N ->
          lookup_texture (set_textures r reg') id = lookup_texture r id).
Proof.
  intros r ts Hb. pose proof (insert_all_spec ts (textures r) Hb) as H.
  destruct (insert_all ts (textures r)) as [ids reg'].
  destruct H as (Hids & Hnext & Hget & Hother).
  split; [exact Hids | split; [exact Hnext | split]].
  - intros i t Hnth. apply lookup_texture_registered; [| apply Hget; exact Hnth].
    assert (i < length ts)%nat by (apply nth_error_Some; congruence). lia.
  - intros id Hid. unfold lookup_texture. cbn [textures set_textures]. rewrite Hother by exact Hid.
    reflexivity.
Qed.

Lemma insert_all_consecutive_ids_witness :
  (next (textures sample_renderer) + N.of_nat (length [sample_font; sample_user_texture]) <= usize_max)%N
  /\ (let '(ids, reg') := insert_all [sample_font; sample_user_texture] (textures sample_renderer) in
      ids = map (fun i => next (textures sample_renderer) + N.of_nat i)%N (seq 0 2)
      /\ next reg' = (next (textures sample_renderer) + N.of_nat 2)%N
      /\ (forall i t, nth_error [sample_font; sample_user_texture] i = Some t ->
            lookup_texture (set_textures sample_renderer reg') (next (textures sample_renderer) + N.of_nat i)%N = inl t)
      /\ (forall id, (id < next (textures sample_renderer) \/ next (textures sample_renderer) + N.of_nat 2 <= id)%N ->
            lookup_texture (set_textures sample_renderer reg') id = lookup_texture sample_renderer id)).
Proof.
  assert (H : (next (textures sample_renderer)
               + N.of_nat (length [sample_font; sample_user_texture]) <= usize_max)%N)
    by (vm_compute; discriminate).
  split; [exact H | exact (insert_all_consecutive_ids sample_renderer [sample_font; sample_user_texture] H)].
Defined.

(** [textures().remove(id)] for a non-sentinel identifier returns what the
    registry held under it, makes it resolve to [BadTexture], keeps the
    counter, and changes the resolution of no other identifier. *)
Theorem remove_frees_only_that_id :
  forall (r : Renderer) (id : TextureId),
    id <> usize_max ->
    fst (Textures_remove id (textures r)) = Textures_get id (textures r)
    /\ lookup_texture (renderer_remove_texture r id) id = inr (BadTexture id)
    /\ next (textures (renderer_remove_texture r id)) = next (textures r)
    /\ (forall id', id' <> id ->
          lookup_texture (renderer_remove_texture r id) id' = lookup_texture r id').
Proof.
  intros r id Hne. split; [reflexivity | split; [| split; [reflexivity |]]].
  - unfold lookup_texture, renderer_remove_texture, Textures_remove, Textures_get. simpl.
    apply N.eqb_neq in Hne. rewrite Hne, lookup_delete_eq. reflexivity.
  - intros id' Hne'. unfold lookup_texture, renderer_remove_texture, Textures_remove, Textures_get.
    simpl. rewrite lookup_delete_ne by congruence. reflexivity.
Qed.

Lemma remove_frees_only_that_id_witness :
  let r := snd (renderer_insert_texture sample_renderer sample_user_texture) in
  (0 <> usize_max)%N
  /\ fst (Textures_remove 0%N (textures r)) = Textures_get 0%N (textures r)
  /\ lookup_texture (renderer_remove_texture r 0%N) 0%N = inr (BadTexture 0%N)
  /\ next (textures (renderer_remove_texture r 0%N)) = next (textures r)
  /\ (forall id', id' <> 0%N ->
        lookup_texture (renderer_remove_texture r 0%N) id' = lookup_texture r id').
Proof.
  intros r. assert (H : (0 <> usize_max)%N) by (vm_compute; discriminate).
  split; [exact H | exact (remove_frees_only_that_id r 0%N H)].
Defined.

(** ** Construction and font reload *)



